(** * strider-github-oauth: the strategy callback of [authorization.js]

    A shallow embedding of [makeStrategyCallback] and of the functions it
    closes over, with the properties of the identity-resolution and
    authorization pipeline proved about it.

    Callback-passing code is written in direct style in a state-and-error
    monad: [callback(err)] is a failure, [callback(null, v)] a result.  The
    state is what the functions share and what outlives one attempt: the
    user collection behind [context.models.User], the [teamIds] cache of the
    closure, and the list of calls made to the collaborators.  The calls to
    [logger] only print and are left out. *)

From Stdlib Require Import List String Ascii Bool ZArith Arith Lia.
Import ListNotations.
Open Scope string_scope.
Open Scope list_scope.

Set Implicit Arguments.

(** ** JavaScript values *)

(** [!!s] for a value that is [null]/[undefined] or a string: the empty
    string is falsy like [null]. *)
Definition truthy (s : option string) : bool :=
  match s with
  | Some v => negb (v =? EmptyString)
  | None => false
  end.

(** [String(s)] inside [Array.prototype.join]: [undefined] is printed empty. *)
Definition js_string (s : option string) : string :=
  match s with
  | Some v => v
  | None => EmptyString
  end.

(** ['' + array]: the elements separated by commas. *)
Definition array_toString (l : list (option string)) : string :=
  String.concat "," (map js_string l).

(** An error is either built here with [new Error(message)] or handed over
    by a collaborator (the GitHub client, the user model). *)
Inductive Error : Type :=
  | NewError (message : string)
  | CollaboratorError (message : string).

Definition NoVerifiedEmail : Error :=
  NewError "You have no verified email addresses on GitHub.".

Definition AmbiguousAccount (emails : list (option string)) : Error :=
  NewError ("More than one user found matching addresses: " ++ array_toString emails)%string.

Definition AuthorizationDenied : Error :=
  NewError "User not authorized".

(** ["Enumerated constants" used to mark authorization levels]: the marker
    object [UNAUTHORIZED = {}] or a number, [ACCESS = 0] and [ADMIN = 1]. *)
Inductive Authorization : Type :=
  | UNAUTHORIZED
  | Level (n : Z).

Definition ACCESS : Authorization := Level 0.
Definition ADMIN : Authorization := Level 1.

(** ** Data *)

(** One element of the array [gh.emails] yields. *)
Record EmailEntry : Type := {
  entry_email : string;
  entry_verified : bool;
  entry_primary : bool
}.

(** The passport profile, as far as it is read ([gravatar_id] is
    [profile._json.gravatar_id]). *)
Record Profile : Type := {
  profile_id : string;
  profileUrl : string;
  username : string;
  displayName : string;
  gravatar_id : string
}.

Record AccountConfig : Type := {
  config_accessToken : string;
  config_login : string;
  config_email : option string;
  config_gravatarId : string;
  config_name : string
}.

(** An element of [user.accounts]; [cache] is only ever created empty. *)
Record Account : Type := {
  account_provider : string;
  account_id : string;
  account_display_url : string;
  account_title : string;
  account_config : AccountConfig;
  account_cache : list unit
}.

(** Modelled from the spec: the User model is Strider's
    ([context.models.User]), not part of this repository.  A document has
    the identifier the store keys it by, a unique email, a creation
    timestamp, the placeholder credential, its projects, the ordered list of
    linked external identities and the authorization level. *)
Record User : Type := {
  _id : nat;
  user_email : option string;
  created : option Z;
  password : option string;
  projects : list string;
  accounts : list Account;
  account_level : option Z
}.

Inductive TeamType : Type := access | admin.

(** [var teamIds = { access: null, admin: null }]. *)
Record TeamIds : Type := {
  teamIds_access : option Z;
  teamIds_admin : option Z
}.

Definition teamIds_init : TeamIds :=
  {| teamIds_access := None; teamIds_admin := None |}.

(** [teamIds[teamType]]. *)
Definition teamIds_get (t : TeamIds) (teamType : TeamType) : option Z :=
  match teamType with
  | access => teamIds_access t
  | admin => teamIds_admin t
  end.

(** [teamIds[teamType] = id]. *)
Definition teamIds_set (t : TeamIds) (teamType : TeamType) (v : Z) : TeamIds :=
  match teamType with
  | access => {| teamIds_access := Some v; teamIds_admin := teamIds_admin t |}
  | admin => {| teamIds_access := teamIds_access t; teamIds_admin := Some v |}
  end.

(** [require('./config')]: the organization and the two optional team names. *)
Record Config : Type := {
  orgName : string;
  accessTeamName : option string;
  adminTeamName : option string
}.

(** [config[teamType + 'TeamName']]. *)
Definition config_TeamName (c : Config) (teamType : TeamType) : option string :=
  match teamType with
  | access => accessTeamName c
  | admin => adminTeamName c
  end.

(** ** Collaborators *)

(** What a collaborator hands to its callback: an error or a value. *)
Definition Response (A : Type) : Type := (string + A)%type.

(** Modelled from the spec: the GitHub client of [./github] is not under
    [src/]; these are its four operations, each of which may fail.
    [findTeamWithName] yields [null] ([None]) when the organization has no
    such team. *)
Record GitHubApi : Type := {
  api_emails : Response (list EmailEntry);
  api_belongsToOrganization : string -> Response (bool * bool);
  api_findTeamWithName : string -> string -> Response (option Z);
  api_belongsToTeam : Z -> Response bool
}.

(** [new GitHub(profile, accessToken)]. *)
Record GitHub : Type := {
  gh_profile : Profile;
  gh_accessToken : string;
  gh_api : GitHubApi
}.

(** The calls made to the collaborators, in the order they are recorded. *)
Inductive Call : Type :=
  | CallEmails
  | CallBelongsToOrganization (org : string)
  | CallFindTeamWithName (org name : string)
  | CallBelongsToTeam (team : Z)
  | CallFind (addresses : list string)
  | CallSave (user : User).

(** Everything outside one attempt that the functions may consult: the
    remote answers to the client built from a profile and a token, whether
    the store refuses a query or a write, the clock, the random source, and
    which of two failing parallel tasks reports first. *)
Record Env : Type := {
  GitHub_remote : Profile -> string -> GitHubApi;
  User_find_error : list string -> option string;
  User_save_error : User -> option string;
  Date_now : Z;
  crypto_randomBytes : string;
  user_reports_first : bool;
  access_id_reports_first : bool;
  access_membership_reports_first : bool
}.

(** ** State *)

Record World : Type := {
  db : list User;
  teamIds : TeamIds;
  calls : list Call
}.

Definition record (c : Call) (w : World) : World :=
  {| db := db w; teamIds := teamIds w; calls := calls w ++ [c] |}.

Definition with_db (d : list User) (w : World) : World :=
  {| db := d; teamIds := teamIds w; calls := calls w |}.

Definition with_teamIds (t : TeamIds) (w : World) : World :=
  {| db := db w; teamIds := t; calls := calls w |}.

(** The calls made between [w] and a later [w']. *)
Definition issued (w w' : World) : list Call :=
  skipn (List.length (calls w)) (calls w').

(** ** The monad of callbacks *)

Definition M (A : Type) : Type := World -> (Error + A) * World.

Definition ret {A} (a : A) : M A := fun w => (inr a, w).

Definition fail {A} (e : Error) : M A := fun w => (inl e, w).

Definition bind {A B} (m : M A) (k : A -> M B) : M B :=
  fun w =>
    match m w with
    | (inl e, w') => (inl e, w')
    | (inr a, w') => k a w'
    end.

Notation "x <- m ;; k" := (bind m (fun x => k))
  (at level 61, m at next level, right associativity).
Notation "' pat <- m ;; k" := (bind m (fun x => match x with pat => k end))
  (at level 61, pat pattern, m at next level, right associativity).
Notation "m ;;; k" := (bind m (fun _ => k))
  (at level 61, right associativity).

(** A call to a collaborator: recorded, then answered. *)
Definition call {A} (c : Call) (r : Response A) : M A :=
  fun w =>
    match r with
    | inl err => (inl (CollaboratorError err), record c w)
    | inr v => (inr v, record c w)
    end.

(** [async.parallel] with two tasks.  Both tasks run to their end whatever
    the other does; the final callback gets the first error reported, or
    both results.  The tasks of this file touch disjoint parts of the state,
    so their effects are taken one after the other; [left_first] says whose
    error arrives first when both fail. *)
Definition parallel {A B} (left_first : bool) (a : M A) (b : M B) : M (A * B) :=
  fun w =>
    let (ra, w1) := a w in
    let (rb, w2) := b w1 in
    match ra, rb with
    | inr x, inr y => (inr (x, y), w2)
    | inl e, inr _ => (inl e, w2)
    | inr _, inl e => (inl e, w2)
    | inl e1, inl e2 => (inl (if left_first then e1 else e2), w2)
    end.

(** ** The user model *)

(** Modelled from the spec: the account store.  [User.find({ email: { $in:
    addresses }})] yields the documents whose email is one of the addresses,
    or an error. *)
Definition email_in (addresses : list string) (u : User) : bool :=
  match user_email u with
  | Some e => existsb (String.eqb e) addresses
  | None => false
  end.

(** An identifier no stored document has, for [new User()]. *)
Definition fresh_id (d : list User) : nat := S (list_max (map _id d)).

(** What [save] leaves in the collection: the document replaces the stored
    one with its identifier, or is added. *)
Definition upsert (u : User) (d : list User) : list User :=
  if existsb (fun v => (_id v =? _id u)%nat) d
  then map (fun v => if (_id v =? _id u)%nat then u else v) d
  else d ++ [u].

(** Modelled from the spec: [user.account(provider, id)] of Strider's model,
    the linked identity for this provider and external id, if any. *)
Definition User_account (u : User) (provider id : string) : option Account :=
  find (fun a => (account_provider a =? provider)%string && (account_id a =? id)%string)
       (accounts u).

Definition set_email (u : User) (v : option string) : User :=
  {| _id := _id u; user_email := v; created := created u; password := password u;
     projects := projects u; accounts := accounts u; account_level := account_level u |}.

Definition set_created (u : User) (v : Z) : User :=
  {| _id := _id u; user_email := user_email u; created := Some v; password := password u;
     projects := projects u; accounts := accounts u; account_level := account_level u |}.

Definition set_password (u : User) (v : string) : User :=
  {| _id := _id u; user_email := user_email u; created := created u; password := Some v;
     projects := projects u; accounts := accounts u; account_level := account_level u |}.

Definition set_projects (u : User) (v : list string) : User :=
  {| _id := _id u; user_email := user_email u; created := created u; password := password u;
     projects := v; accounts := accounts u; account_level := account_level u |}.

Definition set_account_level (u : User) (v : Z) : User :=
  {| _id := _id u; user_email := user_email u; created := created u; password := password u;
     projects := projects u; accounts := accounts u; account_level := Some v |}.

(** [user.accounts.push(a)]. *)
Definition push_account (u : User) (a : Account) : User :=
  {| _id := _id u; user_email := user_email u; created := created u; password := password u;
     projects := projects u; accounts := accounts u ++ [a]; account_level := account_level u |}.

(** What the final callback of the strategy is called with: [(err, user)],
    either of which may be missing. *)
Definition Outcome : Type := (option Error * option User)%type.

(** ** Concrete collaborators, for running the functions *)

Definition lower_ascii (c : ascii) : ascii :=
  let n := nat_of_ascii c in
  if ((65 <=? n) && (n <=? 90))%nat then ascii_of_nat (n + 32) else c.

(** [toLowerCase] on the ASCII letters. *)
Fixpoint ascii_toLowerCase (s : string) : string :=
  match s with
  | EmptyString => EmptyString
  | String c rest => String (lower_ascii c) (ascii_toLowerCase rest)
  end.

Definition octocat : Profile :=
  {| profile_id := "583231"; profileUrl := "https://github.com/octocat";
     username := "octocat"; displayName := "The Octocat"; gravatar_id := EmptyString |}.

Definition entry (address : string) (is_verified is_primary : bool) : EmailEntry :=
  {| entry_email := address; entry_verified := is_verified; entry_primary := is_primary |}.

(** A client whose organization answer is [org], whose teams are found as
    [team] says and whose members are those [member] accepts. *)
Definition api_of (emails : Response (list EmailEntry)) (org : Response (bool * bool))
    (team : string -> Response (option Z)) (member : Z -> Response bool) : GitHubApi :=
  {| api_emails := emails;
     api_belongsToOrganization := fun _ => org;
     api_findTeamWithName := fun _ name => team name;
     api_belongsToTeam := member |}.

(** A store that accepts every query and every write. *)
Definition env_of (api : GitHubApi) : Env :=
  {| GitHub_remote := fun _ _ => api;
     User_find_error := fun _ => None;
     User_save_error := fun _ => None;
     Date_now := 1446508800000;
     crypto_randomBytes := "r4nd0m";
     user_reports_first := true;
     access_id_reports_first := true;
     access_membership_reports_first := true |}.

Definition org_config : Config :=
  {| orgName := "acme"; accessTeamName := None; adminTeamName := None |}.

Definition team_config : Config :=
  {| orgName := "acme"; accessTeamName := Some "devs"; adminTeamName := Some "ops" |}.

Definition world0 : World :=
  {| db := []; teamIds := teamIds_init; calls := [] |}.

Definition stored (n : nat) (address : string) : User :=
  {| _id := n; user_email := Some address; created := Some 0%Z; password := None;
     projects := []; accounts := []; account_level := None |}.

Definition client (api : GitHubApi) : GitHub :=
  {| gh_profile := octocat; gh_accessToken := "token"; gh_api := api |}.

Definition acme_teams (name : string) : Response (option Z) :=
  inr (if (name =? "devs")%string then Some 7%Z
       else if (name =? "ops")%string then Some 9%Z
       else None).

(** A member of the organization and of the access team, with one address. *)
Definition member_api : GitHubApi :=
  api_of (inr [entry "Mona@GitHub.com" true true]) (inr (true, false))
         acme_teams (fun team => inr (team =? 7)%Z).

(** Somebody the organization does not know, with one address. *)
Definition outsider_api : GitHubApi :=
  api_of (inr [entry "Mona@GitHub.com" true true]) (inr (false, false))
         (fun _ => inr None) (fun _ => inr false).

(** A profile without any verified address, unknown to the organization. *)
Definition unverified_api : GitHubApi :=
  api_of (inr [entry "mona@github.com" false true]) (inr (false, false))
         (fun _ => inr None) (fun _ => inr false).

(** A verified address first, then a verified entry flagged primary whose
    address is empty. *)
Definition empty_primary_api : GitHubApi :=
  api_of (inr [entry "Mona@GitHub.com" true false; entry EmptyString true true])
         (inr (true, false)) acme_teams (fun _ => inr false).

(** A client whose team lookups fail. *)
Definition failing_api : GitHubApi :=
  api_of (inr []) (inr (false, false)) (fun _ => inl "ECONNRESET") (fun _ => inr false).

(** An unverified entry flagged primary, then three verified ones of which
    the second and the third are flagged primary. *)
Definition several_addresses : list EmailEntry :=
  [entry "Old@GitHub.com" false true; entry "Mona@GitHub.com" true false;
   entry "Hubot@GitHub.com" true true; entry "Octo@GitHub.com" true true].

Definition several_addresses_api : GitHubApi :=
  api_of (inr several_addresses) (inr (true, false)) acme_teams (fun _ => inr false).

(** Two verified entries and an unverified one, none flagged primary. *)
Definition unflagged_addresses : list EmailEntry :=
  [entry "Mona@GitHub.com" true false; entry "Old@GitHub.com" false false;
   entry "Hubot@GitHub.com" true false].

Definition unflagged_api : GitHubApi :=
  api_of (inr unflagged_addresses) (inr (true, false)) acme_teams (fun _ => inr false).

(** Two verified addresses. *)
Definition two_address_api : GitHubApi :=
  api_of (inr [entry "Mona@GitHub.com" true true; entry "Hubot@GitHub.com" true false])
         (inr (true, true)) acme_teams (fun team => inr (team =? 9)%Z).

Definition with_users (d : list User) : World :=
  {| db := d; teamIds := teamIds_init; calls := [] |}.

(** A provider that cannot be reached. *)
Definition offline_api : GitHubApi :=
  api_of (inl "ETIMEDOUT") (inl "ETIMEDOUT")
         (fun _ => inl "ETIMEDOUT") (fun _ => inl "ETIMEDOUT").

(** The lookup of the access team fails, the admin team is found. *)
Definition half_resolving_api : GitHubApi :=
  api_of (inr [entry "Mona@GitHub.com" true true]) (inr (true, false))
         (fun name => if (name =? "devs")%string then inl "ECONNRESET" else inr (Some 9%Z))
         (fun _ => inr true).

(** The membership call for the access team fails, the caller is an admin. *)
Definition flaky_membership_api : GitHubApi :=
  api_of (inr [entry "Mona@GitHub.com" true true]) (inr (true, false))
         acme_teams
         (fun team => if (team =? 7)%Z then inl "EPIPE" else inr true).

(** A store with its own answers to queries and writes. *)
Definition env_with (api : GitHubApi) (find_error : option string)
    (save_error : option string) : Env :=
  {| GitHub_remote := fun _ _ => api;
     User_find_error := fun _ => find_error;
     User_save_error := fun _ => save_error;
     Date_now := 1446508800000;
     crypto_randomBytes := "r4nd0m";
     user_reports_first := true;
     access_id_reports_first := true;
     access_membership_reports_first := true |}.

(** A process that has resolved both teams already. *)
Definition resolved_world : World :=
  {| db := []; teamIds := {| teamIds_access := Some 7%Z; teamIds_admin := Some 9%Z |};
     calls := [] |}.

(** ** Observations on the calls *)

Definition is_membership_call (c : Call) : bool :=
  match c with
  | CallBelongsToTeam _ => true
  | _ => false
  end.

Definition is_lookup_call (c : Call) : bool :=
  match c with
  | CallFindTeamWithName _ _ => true
  | _ => false
  end.

Definition is_save_call (c : Call) : bool :=
  match c with
  | CallSave _ => true
  | _ => false
  end.

(** The calls that go to the GitHub client, not to the store. *)
Definition is_github_call (c : Call) : bool :=
  match c with
  | CallFind _ | CallSave _ => false
  | _ => true
  end.

Definition any_call (c : Call) : bool := true.

(** [m] only adds calls that satisfy [p] to those already made. *)
Definition emits {A} (p : Call -> bool) (m : M A) : Prop :=
  forall w, exists l,
    calls (snd (m w)) = calls w ++ l /\ forallb p l = true.

(** [m] cannot tell two worlds related by [R] apart, and keeps them related. *)
Definition respects {A} (R : World -> World -> Prop) (m : M A) : Prop :=
  forall w1 w2, R w1 w2 ->
    fst (m w1) = fst (m w2) /\ R (snd (m w1)) (snd (m w2)).

(** [m] leaves the observation [f] of the world as it was. *)
Definition keeps {A S} (f : World -> S) (m : M A) : Prop :=
  forall w, f (snd (m w)) = f w.

Definition same_teamIds (w1 w2 : World) : Prop := teamIds w1 = teamIds w2.

Definition same_db (w1 w2 : World) : Prop := db w1 = db w2.

(** The calls that go to the store. *)
Definition is_store_call (c : Call) : bool :=
  match c with
  | CallFind _ | CallSave _ => true
  | _ => false
  end.

(** [m] keeps the property [P] of the world once it holds. *)
Definition preserves {A} (P : World -> Prop) (m : M A) : Prop :=
  forall w, P w -> P (snd (m w)).

(** The entry of the role is populated with [id]. *)
Definition populated (teamType : TeamType) (id : Z) (w : World) : Prop :=
  teamIds_get (teamIds w) teamType = Some id.

(** ** The functions of [makeStrategyCallback] *)

Section MakeStrategyCallback.

(** [String.prototype.toLowerCase]. *)
Variable toLowerCase : string -> string.
Variable config : Config.
Variable env : Env.

Definition getTeamIds : M TeamIds := fun w => (inr (teamIds w), w).

Definition setTeamId (teamType : TeamType) (v : Z) : M unit :=
  fun w => (inr tt, with_teamIds (teamIds_set (teamIds w) teamType v) w).

Definition User_find (addresses : list string) : M (list User) :=
  fun w =>
    let w' := record (CallFind addresses) w in
    match User_find_error env addresses with
    | Some err => (inl (CollaboratorError err), w')
    | None => (inr (filter (email_in addresses) (db w)), w')
    end.

(** [new User()]: a document of its own identity with nothing filled in;
    the list of linked identities of a new document is empty. *)
Definition new_User : M User :=
  fun w =>
    (inr {| _id := fresh_id (db w); user_email := None; created := None;
            password := None; projects := []; accounts := [];
            account_level := None |}, w).

Definition User_save (u : User) : M unit :=
  fun w =>
    let w' := record (CallSave u) w in
    match User_save_error env u with
    | Some err => (inl (CollaboratorError err), w')
    | None => (inr tt, with_db (upsert u (db w)) w')
    end.

(** The function given to [verified.map]: it down-cases one address after
    the other and assigns the captured [primary] on the way. *)
Fixpoint map_downcased (primary : option string) (verified : list EmailEntry)
  : list string * option string :=
  match verified with
  | [] => ([], primary)
  | result :: rest =>
      let downcased := toLowerCase (entry_email result) in
      let primary :=
        if entry_primary result && negb (truthy primary)
        then Some downcased else primary in
      let (addresses, primary) := map_downcased primary rest in
      (downcased :: addresses, primary)
  end.

(** An entry that can become the primary address: flagged primary, with an
    address that is still truthy once down-cased. *)
Definition claims_primary (e : EmailEntry) : bool :=
  entry_primary e && negb (toLowerCase (entry_email e) =? EmptyString)%string.

Definition downcased (e : EmailEntry) : string := toLowerCase (entry_email e).

Definition emailsFromGitHub (gh : GitHub) : M (list string * option string) :=
  emails <- call CallEmails (api_emails (gh_api gh)) ;;
  let verified := filter entry_verified emails in
  if (List.length verified =? 0)%nat then fail NoVerifiedEmail
  else
    let (addresses, primary) := map_downcased None verified in
    let primary := if negb (truthy primary) then hd_error addresses else primary in
    ret (addresses, primary).

Definition findUser (gh : GitHub) (profile : Profile) : M User :=
  ' (addresses, primary) <- emailsFromGitHub gh ;;
  results <- User_find addresses ;;
  if (1 <? List.length results)%nat then
    let emails := map user_email results in
    fail (AmbiguousAccount emails)
  else
    match results with
    | [] =>
        user <- new_User ;;
        let user := set_email user primary in
        let user := set_created user (Date_now env) in
        let user := set_password user (crypto_randomBytes env) in
        let user := set_projects user [] in
        User_save user ;;;
        ret user
    | first :: _ => ret first
    end.

(** The document [findUser] builds when nothing matches. *)
Definition created_user (w : World) (primary : option string) : User :=
  {| _id := fresh_id (db w); user_email := primary; created := Some (Date_now env);
     password := Some (crypto_randomBytes env); projects := []; accounts := [];
     account_level := None |}.

Definition checkOrgMembership (gh : GitHub) : M Authorization :=
  ' (isMember, isAdmin) <-
    call (CallBelongsToOrganization (orgName config))
         (api_belongsToOrganization (gh_api gh) (orgName config)) ;;
  if isMember && isAdmin then ret ADMIN
  else if isMember && negb isAdmin then ret ACCESS
  else ret UNAUTHORIZED.

Definition ensureTeamId (gh : GitHub) (teamType : TeamType) : M unit :=
  ids <- getTeamIds ;;
  match teamIds_get ids teamType with
  | Some _ => ret tt
  | None =>
      let teamName := config_TeamName config teamType in
      if negb (truthy teamName) then ret tt
      else
        id <- call (CallFindTeamWithName (orgName config) (js_string teamName))
                   (api_findTeamWithName (gh_api gh) (orgName config) (js_string teamName)) ;;
        match id with
        | None => ret tt
        | Some id => setTeamId teamType id
        end
  end.

Definition ensureTeamIds (gh : GitHub) : M unit :=
  parallel (access_id_reports_first env)
           (ensureTeamId gh access) (ensureTeamId gh admin) ;;;
  ret tt.

Definition checkTeamMembership (gh : GitHub) : M Authorization :=
  ensureTeamIds gh ;;;
  ids <- getTeamIds ;;
  match teamIds_access ids, teamIds_admin ids with
  | Some access_id, Some admin_id =>
      ' (results_access, results_admin) <-
        parallel (access_membership_reports_first env)
                 (call (CallBelongsToTeam access_id) (api_belongsToTeam (gh_api gh) access_id))
                 (call (CallBelongsToTeam admin_id) (api_belongsToTeam (gh_api gh) admin_id)) ;;
      if results_admin : bool then ret ADMIN
      else if results_access : bool then ret ACCESS
      else ret UNAUTHORIZED
  | _, _ => ret UNAUTHORIZED
  end.

Definition checkAuthorization (gh : GitHub) : M Authorization :=
  if truthy (accessTeamName config) && truthy (adminTeamName config)
  then checkTeamMembership gh
  else checkOrgMembership gh.

(** The identity pushed onto [user.accounts]. *)
Definition github_account (gh : GitHub) (user : User) : Account :=
  {| account_provider := "github";
     account_id := profile_id (gh_profile gh);
     account_display_url := profileUrl (gh_profile gh);
     account_title := username (gh_profile gh);
     account_config :=
       {| config_accessToken := gh_accessToken gh;
          config_login := username (gh_profile gh);
          config_email := user_email user;
          config_gravatarId := gravatar_id (gh_profile gh);
          config_name := displayName (gh_profile gh) |};
     account_cache := [] |}.

Definition syncUserModel (gh : GitHub) (user : option User)
    (authorization : Authorization) : World -> Outcome * World :=
  fun w =>
    match user, authorization with
    | Some user, Level n =>
        let user := set_account_level user n in
        let user :=
          match User_account user "github" (profile_id (gh_profile gh)) with
          | Some _ => user
          | None => push_account user (github_account gh user)
          end in
        match User_save user w with
        | (inl err, w') => ((Some err, Some user), w')
        | (inr _, w') => ((None, Some user), w')
        end
    | _, _ => ((None, None), w)
    end.

(** The function [async.parallel] calls with both results. *)
Definition merge (gh : GitHub) (user : option User) (authorization : Authorization)
  : World -> Outcome * World :=
  fun w =>
    match authorization with
    | UNAUTHORIZED => ((Some AuthorizationDenied, None), w)
    | _ => syncUserModel gh user authorization w
    end.

(** The function [makeStrategyCallback] returns. *)
Definition makeStrategyCallback (accessToken refreshToken : string) (profile : Profile)
  : World -> Outcome * World :=
  fun w =>
    let gh := {| gh_profile := profile; gh_accessToken := accessToken;
                 gh_api := GitHub_remote env profile accessToken |} in
    match parallel (user_reports_first env)
                   (findUser gh profile) (checkAuthorization gh) w with
    | (inl err, w') => ((Some err, None), w')
    | (inr (results_user, results_authorization), w') =>
        merge gh (Some results_user) results_authorization w'
    end.

(** ** The monad: what every function built from it inherits *)

Lemma issued_app (w w' : World) (l : list Call) :
  calls w' = calls w ++ l -> issued w w' = l.
Proof.
  intros H. unfold issued. rewrite H.
  rewrite skipn_app, skipn_all, Nat.sub_diag. reflexivity.
Qed.

Lemma issued_record (c : Call) (w : World) : issued w (record c w) = [c].
Proof. apply issued_app. reflexivity. Qed.

Lemma issued_refl (w : World) : issued w w = [].
Proof. apply issued_app. symmetry. apply app_nil_r. Qed.

Section Closure.

Context {A B : Type}.

Lemma keeps_ret {S} (f : World -> S) (a : A) : keeps f (ret a).
Proof. intros w. reflexivity. Qed.

Lemma keeps_fail {S} (f : World -> S) (e : Error) : keeps f (@fail A e).
Proof. intros w. reflexivity. Qed.

Lemma keeps_bind {S} (f : World -> S) (m : M A) (k : A -> M B) :
  keeps f m -> (forall a, keeps f (k a)) -> keeps f (bind m k).
Proof.
  intros Hm Hk w. unfold bind. specialize (Hm w).
  destruct (m w) as [[e | a] w']; simpl in *.
  - exact Hm.
  - rewrite Hk. exact Hm.
Qed.

Lemma keeps_parallel {S} (f : World -> S) (o : bool) (a : M A) (b : M B) :
  keeps f a -> keeps f b -> keeps f (parallel o a b).
Proof.
  intros Ha Hb w. unfold parallel. specialize (Ha w).
  destruct (a w) as [ra w1]. specialize (Hb w1).
  destruct (b w1) as [rb w2]. simpl in *.
  destruct ra, rb; simpl; congruence.
Qed.

Lemma emits_ret (p : Call -> bool) (a : A) : emits p (ret a).
Proof. intros w. exists []. split; [symmetry; apply app_nil_r | reflexivity]. Qed.

Lemma emits_fail (p : Call -> bool) (e : Error) : emits p (@fail A e).
Proof. intros w. exists []. split; [symmetry; apply app_nil_r | reflexivity]. Qed.

Lemma emits_bind (p : Call -> bool) (m : M A) (k : A -> M B) :
  emits p m -> (forall a, emits p (k a)) -> emits p (bind m k).
Proof.
  intros Hm Hk w. unfold bind. destruct (Hm w) as [l [Hl Hp]].
  destruct (m w) as [[e | a] w']; simpl in *.
  - exists l. auto.
  - destruct (Hk a w') as [l' [Hl' Hp']]. exists (l ++ l'). split.
    + rewrite Hl', Hl. symmetry. apply app_assoc.
    + rewrite forallb_app, Hp, Hp'. reflexivity.
Qed.

Lemma emits_parallel (p : Call -> bool) (o : bool) (a : M A) (b : M B) :
  emits p a -> emits p b -> emits p (parallel o a b).
Proof.
  intros Ha Hb w. unfold parallel. destruct (Ha w) as [l [Hl Hp]].
  destruct (a w) as [ra w1]. destruct (Hb w1) as [l' [Hl' Hp']].
  destruct (b w1) as [rb w2]. simpl in *.
  exists (l ++ l'). split.
  - destruct ra, rb; simpl; rewrite Hl', Hl; symmetry; apply app_assoc.
  - rewrite forallb_app, Hp, Hp'. reflexivity.
Qed.

Variable R : World -> World -> Prop.

Lemma respects_ret (a : A) : respects R (ret a).
Proof. intros w1 w2 H. split; [reflexivity | exact H]. Qed.

Lemma respects_fail (e : Error) : respects R (@fail A e).
Proof. intros w1 w2 H. split; [reflexivity | exact H]. Qed.

Lemma respects_bind (m : M A) (k : A -> M B) :
  respects R m -> (forall a, respects R (k a)) -> respects R (bind m k).
Proof.
  intros Hm Hk w1 w2 H. unfold bind. destruct (Hm w1 w2 H) as [Hr Hw].
  destruct (m w1) as [[e1 | a1] w1'], (m w2) as [[e2 | a2] w2'];
    simpl in *; try discriminate.
  - split; [congruence | exact Hw].
  - injection Hr as ->. apply Hk. exact Hw.
Qed.

Lemma respects_parallel (o : bool) (a : M A) (b : M B) :
  respects R a -> respects R b -> respects R (parallel o a b).
Proof.
  intros Ha Hb w1 w2 H. unfold parallel. destruct (Ha w1 w2 H) as [Hr Hw].
  destruct (a w1) as [ra1 w1'], (a w2) as [ra2 w2']. simpl in Hr, Hw.
  destruct (Hb w1' w2' Hw) as [Hr' Hw'].
  destruct (b w1') as [rb1 w1''], (b w2') as [rb2 w2'']. simpl in Hr', Hw'.
  subst ra2 rb2. destruct ra1, rb1; simpl; auto.
Qed.

End Closure.

Lemma keeps_call {A S} (f : World -> S) (c : Call) (r : Response A) :
  (forall c w, f (record c w) = f w) -> keeps f (call c r).
Proof. intros H w. unfold call. destruct r; simpl; apply H. Qed.

Lemma emits_call {A} (p : Call -> bool) (c : Call) (r : Response A) :
  p c = true -> emits p (call c r).
Proof.
  intros H w. exists [c]. unfold call.
  destruct r; simpl; rewrite H; auto.
Qed.

Lemma respects_call {A} (R : World -> World -> Prop) (c : Call) (r : Response A) :
  (forall c w1 w2, R w1 w2 -> R (record c w1) (record c w2)) ->
  respects R (call c r).
Proof.
  intros HR w1 w2 H. unfold call. destruct r; simpl; auto.
Qed.

Lemma same_teamIds_record (c : Call) (w1 w2 : World) :
  same_teamIds w1 w2 -> same_teamIds (record c w1) (record c w2).
Proof. intros H. exact H. Qed.

Lemma same_db_record (c : Call) (w1 w2 : World) :
  same_db w1 w2 -> same_db (record c w1) (record c w2).
Proof. intros H. exact H. Qed.

(** ** Email Normalizer *)

Lemma map_downcased_addresses (verified : list EmailEntry) (primary : option string) :
  fst (map_downcased primary verified) = map downcased verified.
Proof.
  revert primary. induction verified as [| e rest IH]; intros primary; simpl.
  - reflexivity.
  - match goal with |- context [map_downcased ?p rest] => specialize (IH p);
      destruct (map_downcased p rest) end.
    simpl in *. rewrite IH. reflexivity.
Qed.

(** Once [primary] is truthy no later entry replaces it. *)
Lemma map_downcased_assigned (verified : list EmailEntry) (primary : option string) :
  truthy primary = true -> snd (map_downcased primary verified) = primary.
Proof.
  revert primary. induction verified as [| e rest IH]; intros primary Hp; simpl.
  - reflexivity.
  - rewrite Hp, andb_false_r. specialize (IH primary Hp).
    destruct (map_downcased primary rest). exact IH.
Qed.

(** While [primary] is falsy, the first entry that can claim it does. *)
Lemma map_downcased_primary (verified : list EmailEntry) (primary : option string) :
  truthy primary = false ->
  match find claims_primary verified with
  | Some e => snd (map_downcased primary verified) = Some (downcased e)
  | None => truthy (snd (map_downcased primary verified)) = false
  end.
Proof.
  revert primary. induction verified as [| e rest IH]; intros primary Hp; simpl.
  - exact Hp.
  - rewrite Hp, andb_true_r. unfold claims_primary at 1.
    destruct (entry_primary e); simpl.
    + destruct (toLowerCase (entry_email e) =? EmptyString)%string eqn:He; simpl.
      * assert (Hn : truthy (Some (toLowerCase (entry_email e))) = false)
          by (simpl; rewrite He; reflexivity).
        specialize (IH _ Hn).
        destruct (map_downcased (Some (toLowerCase (entry_email e))) rest).
        exact IH.
      * assert (Hn : truthy (Some (toLowerCase (entry_email e))) = true)
          by (simpl; rewrite He; reflexivity).
        pose proof (map_downcased_assigned rest _ Hn) as Ha.
        destruct (map_downcased (Some (toLowerCase (entry_email e))) rest).
        exact Ha.
    + specialize (IH _ Hp). destruct (map_downcased primary rest). exact IH.
Qed.

Lemma find_claims_primary_truthy (verified : list EmailEntry) (e : EmailEntry) :
  find claims_primary verified = Some e -> truthy (Some (downcased e)) = true.
Proof.
  intros H. apply find_some in H. destruct H as [_ H].
  unfold claims_primary in H. apply andb_true_iff in H. apply H.
Qed.

Lemma emailsFromGitHub_world (gh : GitHub) (w : World) :
  snd (emailsFromGitHub gh w) = record CallEmails w.
Proof.
  unfold emailsFromGitHub, bind, call.
  destruct (api_emails (gh_api gh)) as [err | emails]; simpl; [reflexivity |].
  destruct (List.length (filter entry_verified emails) =? 0)%nat; [reflexivity |].
  destruct (map_downcased None (filter entry_verified emails)). reflexivity.
Qed.

(** What the normalizer yields for every list, empty addresses included:
    the primary is the first verified entry flagged primary whose down-cased
    address is truthy, or the first verified entry when there is none. *)
Lemma emailsFromGitHub_characterized (gh : GitHub) (w : World) (emails : list EmailEntry) :
  api_emails (gh_api gh) = inr emails ->
  let verified := filter entry_verified emails in
  snd (emailsFromGitHub gh w) = record CallEmails w /\
  (verified = [] -> fst (emailsFromGitHub gh w) = inl NoVerifiedEmail) /\
  (verified <> [] ->
   fst (emailsFromGitHub gh w) =
     inr (map (fun e => toLowerCase (entry_email e)) verified,
          match find (fun e => entry_primary e
                               && negb (toLowerCase (entry_email e) =? EmptyString)%string)
                     verified with
          | Some e => Some (toLowerCase (entry_email e))
          | None => option_map (fun e => toLowerCase (entry_email e)) (hd_error verified)
          end)).
Proof.
  intros Hapi verified. split; [apply emailsFromGitHub_world |].
  unfold emailsFromGitHub, bind, call. rewrite Hapi. fold verified.
  split; intros Hv.
  - rewrite Hv. reflexivity.
  - destruct verified as [| e rest] eqn:E; [contradiction |].
    change (List.length (e :: rest) =? 0)%nat with false. cbv iota.
    pose proof (map_downcased_addresses (e :: rest) None) as Ha.
    pose proof (@map_downcased_primary (e :: rest) None eq_refl) as Hp.
    fold claims_primary.
    destruct (map_downcased None (e :: rest)) as [addresses primary].
    simpl fst in Ha. simpl snd in Hp. subst addresses.
    destruct (find claims_primary (e :: rest)) as [e' |] eqn:Hf.
    + subst primary. rewrite (find_claims_primary_truthy _ Hf). reflexivity.
    + rewrite Hp. reflexivity.
Qed.

Lemma find_ext_in {A} (p q : A -> bool) (l : list A) :
  (forall a, In a l -> p a = q a) -> find p l = find q l.
Proof.
  induction l as [| a l IH]; simpl; intros H; [reflexivity |].
  rewrite (H a (or_introl eq_refl)).
  destruct (q a); [reflexivity |]. apply IH. intros b Hb. apply H. right. exact Hb.
Qed.

(** C5: for an email list of the provider, none of whose addresses is empty
    once down-cased, the normalizer keeps the verified entries only, fails
    with NoVerifiedEmail when there is none, down-cases every kept address,
    and takes as primary the first verified entry flagged primary, or the
    first verified entry in list order when none is flagged; it only asks
    the provider for the list and writes nothing. *)
Theorem emailsFromGitHub_normalizes (gh : GitHub) (w : World) (emails : list EmailEntry) :
  api_emails (gh_api gh) = inr emails ->
  Forall (fun e => toLowerCase (entry_email e) <> EmptyString) emails ->
  let verified := filter entry_verified emails in
  snd (emailsFromGitHub gh w) = record CallEmails w /\
  (verified = [] -> fst (emailsFromGitHub gh w) = inl NoVerifiedEmail) /\
  (verified <> [] ->
   fst (emailsFromGitHub gh w) =
     inr (map (fun e => toLowerCase (entry_email e)) verified,
          match find entry_primary verified with
          | Some e => Some (toLowerCase (entry_email e))
          | None => option_map (fun e => toLowerCase (entry_email e)) (hd_error verified)
          end)).
Proof.
  intros Hapi Hfull verified.
  destruct (emailsFromGitHub_characterized gh w Hapi) as [Hworld [Hnone Hsome]].
  fold verified in Hnone, Hsome.
  split; [exact Hworld |]. split; [exact Hnone |].
  intros Hv. rewrite (Hsome Hv). do 2 f_equal.
  assert (Hfind : find (fun e => entry_primary e
                          && negb (toLowerCase (entry_email e) =? EmptyString)%string)
                       verified = find entry_primary verified).
  { apply find_ext_in. intros e He.
    assert (Hin : In e emails) by (apply filter_In in He; apply He).
    rewrite Forall_forall in Hfull. specialize (Hfull e Hin).
    destruct (String.eqb_spec (toLowerCase (entry_email e)) EmptyString);
      [contradiction |].
    simpl. apply andb_true_r. }
  rewrite Hfind. reflexivity.
Qed.

(** ** Account Resolver *)

Lemma fresh_id_above (d : list User) (v : User) :
  In v d -> _id v < fresh_id d.
Proof.
  unfold fresh_id. induction d as [| u d IH]; simpl; intros H.
  - contradiction.
  - destruct H as [-> | H]; [lia |]. specialize (IH H). lia.
Qed.

Lemma upsert_new (u : User) (d : list User) :
  _id u = fresh_id d -> upsert u d = d ++ [u].
Proof.
  intros Hid. unfold upsert.
  assert (H : existsb (fun v => (_id v =? _id u)%nat) d = false).
  { apply not_true_is_false. intros H. apply existsb_exists in H.
    destruct H as [v [Hv He]]. apply Nat.eqb_eq in He.
    pose proof (fresh_id_above d v Hv). lia. }
  rewrite H. reflexivity.
Qed.

Lemma emailsFromGitHub_run (gh : GitHub) (w : World) r :
  fst (emailsFromGitHub gh w) = r ->
  emailsFromGitHub gh w = (r, record CallEmails w).
Proof.
  intros H. rewrite <- H, <- (emailsFromGitHub_world gh w). apply surjective_pairing.
Qed.

(** What [findUser] does once the addresses are known and the query is
    answered: it depends on the number of documents found only. *)
Lemma findUser_run (gh : GitHub) (profile : Profile) (w : World)
    (addresses : list string) (primary : option string) :
  fst (emailsFromGitHub gh w) = inr (addresses, primary) ->
  User_find_error env addresses = None ->
  let w' := record (CallFind addresses) (record CallEmails w) in
  let user := created_user w primary in
  findUser gh profile w =
    match filter (email_in addresses) (db w) with
    | [] =>
        match User_save_error env user with
        | Some err => (inl (CollaboratorError err), record (CallSave user) w')
        | None => (inr user, with_db (db w ++ [user]) (record (CallSave user) w'))
        end
    | [first] => (inr first, w')
    | results => (inl (AmbiguousAccount (map user_email results)), w')
    end.
Proof.
  intros He Hf w' user. apply emailsFromGitHub_run in He.
  unfold findUser, bind. rewrite He. unfold User_find. rewrite Hf.
  change (db (record CallEmails w)) with (db w). fold w'.
  destruct (filter (email_in addresses) (db w)) as [| first [| second rest]].
  - simpl. unfold User_save, new_User.
    change (set_projects _ []) with user.
    change (db w') with (db w).
    destruct (User_save_error env user); [reflexivity |].
    rewrite (@upsert_new user (db w) eq_refl). reflexivity.
  - reflexivity.
  - reflexivity.
Qed.

Ltac issued_calls :=
  erewrite issued_app by (simpl; rewrite <- ?app_assoc; reflexivity).

(** C4: when the verified addresses match no stored account and the store
    takes the write, the resolver creates and persists exactly one new
    account: email = the computed primary, creation time = now, the freshly
    generated placeholder credential, no linked identity.  When they match
    exactly one stored account, that document is returned as it is and
    nothing is created or saved. *)
Theorem findUser_creates_or_returns (gh : GitHub) (profile : Profile) (w : World)
    (addresses : list string) (primary : option string) :
  fst (emailsFromGitHub gh w) = inr (addresses, primary) ->
  User_find_error env addresses = None ->
  let user :=
    {| _id := fresh_id (db w); user_email := primary;
       created := Some (Date_now env);
       password := Some (crypto_randomBytes env);
       projects := []; accounts := []; account_level := None |} in
  let w' := snd (findUser gh profile w) in
  (filter (email_in addresses) (db w) = [] ->
   User_save_error env user = None ->
   fst (findUser gh profile w) = inr user /\
   db w' = db w ++ [user] /\
   ~ In user (db w) /\
   filter is_save_call (issued w w') = [CallSave user]) /\
  (forall found,
   filter (email_in addresses) (db w) = [found] ->
   fst (findUser gh profile w) = inr found /\
   In found (db w) /\
   db w' = db w /\
   filter is_save_call (issued w w') = []).
Proof.
  intros He Hf user w'. subst w'.
  rewrite (findUser_run gh profile w He Hf). fold (created_user w primary).
  change (created_user w primary) with user.
  split.
  - intros Hr Hs. rewrite Hr, Hs. simpl. repeat split.
    + intros Hin. apply fresh_id_above in Hin. simpl in Hin. lia.
    + issued_calls. reflexivity.
  - intros found Hr. rewrite Hr. simpl. repeat split.
    + assert (Hin : In found (filter (email_in addresses) (db w)))
        by (rewrite Hr; left; reflexivity).
      apply filter_In in Hin. apply Hin.
    + issued_calls. reflexivity.
Qed.

(** C6: when the candidate addresses match two or more stored accounts the
    resolver fails with AmbiguousAccount, whose message names the emails of
    the accounts found, and no account is created or changed: the store is
    as it was and no write was asked of it. *)
Theorem findUser_ambiguous (gh : GitHub) (profile : Profile) (w : World)
    (addresses : list string) (primary : option string) :
  fst (emailsFromGitHub gh w) = inr (addresses, primary) ->
  User_find_error env addresses = None ->
  2 <= List.length (filter (email_in addresses) (db w)) ->
  let w' := snd (findUser gh profile w) in
  fst (findUser gh profile w) =
    inl (NewError ("More than one user found matching addresses: "
                   ++ String.concat "," (map js_string
                        (map user_email (filter (email_in addresses) (db w)))))%string) /\
  db w' = db w /\
  filter is_save_call (issued w w') = [].
Proof.
  intros He Hf Hn w'. subst w'.
  rewrite (findUser_run gh profile w He Hf).
  destruct (filter (email_in addresses) (db w)) as [| first [| second rest]];
    simpl in Hn; try lia.
  simpl fst. simpl snd. repeat split.
  issued_calls. reflexivity.
Qed.

(** ** Team-ID Cache *)

Lemma truthy_Some (name : string) : name <> EmptyString -> truthy (Some name) = true.
Proof.
  intros H. simpl. destruct (String.eqb_spec name EmptyString); [contradiction | reflexivity].
Qed.

Lemma ensureTeamId_cached (gh : GitHub) (teamType : TeamType) (w : World) (id : Z) :
  teamIds_get (teamIds w) teamType = Some id ->
  ensureTeamId gh teamType w = (inr tt, w).
Proof.
  intros H. unfold ensureTeamId, bind, getTeamIds. rewrite H. reflexivity.
Qed.

Lemma ensureTeamId_unconfigured (gh : GitHub) (teamType : TeamType) (w : World) :
  truthy (config_TeamName config teamType) = false ->
  ensureTeamId gh teamType w = (inr tt, w).
Proof.
  intros H. unfold ensureTeamId, bind, getTeamIds. rewrite H.
  destruct (teamIds_get (teamIds w) teamType); reflexivity.
Qed.

Lemma ensureTeamId_lookup (gh : GitHub) (teamType : TeamType) (w : World) (name : string) :
  teamIds_get (teamIds w) teamType = None ->
  config_TeamName config teamType = Some name ->
  name <> EmptyString ->
  let w' := record (CallFindTeamWithName (orgName config) name) w in
  ensureTeamId gh teamType w =
    match api_findTeamWithName (gh_api gh) (orgName config) name with
    | inl err => (inl (CollaboratorError err), w')
    | inr None => (inr tt, w')
    | inr (Some id) => (inr tt, with_teamIds (teamIds_set (teamIds w) teamType id) w')
    end.
Proof.
  intros Hc Hn Hne w'. unfold ensureTeamId, bind, getTeamIds, call.
  rewrite Hc, Hn, (truthy_Some Hne). simpl. fold w'.
  destruct (api_findTeamWithName (gh_api gh) (orgName config) name) as [err | [id |]];
    reflexivity.
Qed.

Lemma teamIds_get_set (t : TeamIds) (teamType : TeamType) (id : Z) :
  teamIds_get (teamIds_set t teamType id) teamType = Some id.
Proof. destruct teamType; reflexivity. Qed.

(** C2 (as amended): for a role with a configured team name whose entry is
    not populated yet, a successful lookup stores the identifier, after
    which no call for that role asks the API again; when the API reports that
    there is no such team nothing is stored, the entry stays unpopulated and
    the next call for that role asks the API again; on an API error the error
    is returned, nothing is stored, and the next call asks again. *)
Theorem ensureTeamId_caches (gh : GitHub) (teamType : TeamType) (w : World) (name : string) :
  teamIds_get (teamIds w) teamType = None ->
  config_TeamName config teamType = Some name ->
  name <> EmptyString ->
  let lookup := CallFindTeamWithName (orgName config) name in
  let answer := api_findTeamWithName (gh_api gh) (orgName config) name in
  let w' := snd (ensureTeamId gh teamType w) in
  issued w w' = [lookup] /\
  (forall id, answer = inr (Some id) ->
     fst (ensureTeamId gh teamType w) = inr tt /\
     teamIds_get (teamIds w') teamType = Some id /\
     forall gh2 w2, teamIds_get (teamIds w2) teamType = Some id ->
       ensureTeamId gh2 teamType w2 = (inr tt, w2)) /\
  (answer = inr None ->
     fst (ensureTeamId gh teamType w) = inr tt /\
     teamIds w' = teamIds w /\
     forall gh2, issued w' (snd (ensureTeamId gh2 teamType w')) = [lookup]) /\
  (forall err, answer = inl err ->
     fst (ensureTeamId gh teamType w) = inl (CollaboratorError err) /\
     teamIds w' = teamIds w /\
     forall gh2, issued w' (snd (ensureTeamId gh2 teamType w')) = [lookup]).
Proof.
  intros Hc Hn Hne lookup answer w'.
  assert (Hagain : forall gh2 w2, teamIds w2 = teamIds w ->
            issued w2 (snd (ensureTeamId gh2 teamType w2)) = [lookup]).
  { intros gh2 w2 Hw2. rewrite <- Hw2 in Hc.
    rewrite (ensureTeamId_lookup gh2 teamType w2 Hc Hn Hne).
    destruct (api_findTeamWithName (gh_api gh2) (orgName config) name) as [e | [i |]];
      apply issued_app; reflexivity. }
  split; [apply Hagain; reflexivity |].
  subst w'. rewrite (ensureTeamId_lookup gh teamType w Hc Hn Hne). fold answer lookup.
  repeat split.
  - rewrite H. reflexivity.
  - rewrite H. simpl. apply teamIds_get_set.
  - intros gh2 w2 Hw2. apply (ensureTeamId_cached gh2 teamType w2 Hw2).
  - rewrite H. reflexivity.
  - rewrite H. reflexivity.
  - intros gh2. rewrite H. apply Hagain. reflexivity.
  - rewrite H. reflexivity.
  - rewrite H. reflexivity.
  - intros gh2. rewrite H. apply Hagain. reflexivity.
Qed.

(** ** Authorization Evaluator *)

(** C7: in organization-membership mode (not both team names configured)
    the level derived from the answer (isMember, isAdmin) of the one
    membership query is ADMIN for (true, true), ACCESS for (true, false) and
    UNAUTHORIZED whenever isMember is false. *)
Theorem checkAuthorization_organization (gh : GitHub) (w : World) (isMember isAdmin : bool) :
  truthy (accessTeamName config) && truthy (adminTeamName config) = false ->
  api_belongsToOrganization (gh_api gh) (orgName config) = inr (isMember, isAdmin) ->
  checkAuthorization gh w =
    (inr (match isMember, isAdmin with
          | true, true => ADMIN
          | true, false => ACCESS
          | false, _ => UNAUTHORIZED
          end),
     record (CallBelongsToOrganization (orgName config)) w).
Proof.
  intros Hmode Hapi. unfold checkAuthorization. rewrite Hmode.
  unfold checkOrgMembership, bind, call. rewrite Hapi.
  destruct isMember, isAdmin; reflexivity.
Qed.

(** *** What the evaluator touches *)

Lemma getTeamIds_keeps {S} (f : World -> S) : keeps f getTeamIds.
Proof. intros w. reflexivity. Qed.

Lemma getTeamIds_emits (p : Call -> bool) : emits p getTeamIds.
Proof. intros w. exists []. split; [symmetry; apply app_nil_r | reflexivity]. Qed.

Lemma getTeamIds_respects : respects same_teamIds getTeamIds.
Proof. intros w1 w2 H. split; [simpl; f_equal; exact H | exact H]. Qed.

Lemma setTeamId_keeps_db (teamType : TeamType) (id : Z) :
  keeps db (setTeamId teamType id).
Proof. intros w. reflexivity. Qed.

Lemma setTeamId_emits (p : Call -> bool) (teamType : TeamType) (id : Z) :
  emits p (setTeamId teamType id).
Proof. intros w. exists []. split; [symmetry; apply app_nil_r | reflexivity]. Qed.

Lemma setTeamId_respects (teamType : TeamType) (id : Z) :
  respects same_teamIds (setTeamId teamType id).
Proof.
  intros w1 w2 H. split; [reflexivity |].
  unfold same_teamIds in *. simpl. rewrite H. reflexivity.
Qed.

(** One step through a function of the monad, for any of the three
    properties: the primitives first, then the combinators, then a case
    analysis on what the code branches on. *)
Ltac closure_step :=
  first
    [ apply getTeamIds_keeps | apply setTeamId_keeps_db
    | apply getTeamIds_emits | apply setTeamId_emits
    | apply getTeamIds_respects | apply setTeamId_respects
    | apply keeps_ret | apply keeps_fail | apply keeps_parallel
    | apply keeps_bind; [| intros ?]
    | apply keeps_call; reflexivity
    | apply emits_ret | apply emits_fail | apply emits_parallel
    | apply emits_bind; [| intros ?]
    | apply emits_call; reflexivity
    | apply respects_ret | apply respects_fail | apply respects_parallel
    | apply respects_bind; [| intros ?]
    | apply respects_call; exact same_teamIds_record
    | match goal with
      | |- _ _ (match ?x with _ => _ end) => destruct x
      end ].

Lemma ensureTeamId_keeps_db (gh : GitHub) (teamType : TeamType) :
  keeps db (ensureTeamId gh teamType).
Proof. unfold ensureTeamId. repeat closure_step. Qed.

Lemma ensureTeamId_emits (gh : GitHub) (teamType : TeamType) :
  emits is_lookup_call (ensureTeamId gh teamType).
Proof. unfold ensureTeamId. repeat closure_step. Qed.

Lemma ensureTeamId_respects (gh : GitHub) (teamType : TeamType) :
  respects same_teamIds (ensureTeamId gh teamType).
Proof. unfold ensureTeamId. repeat closure_step. Qed.

Lemma ensureTeamIds_keeps_db (gh : GitHub) : keeps db (ensureTeamIds gh).
Proof. unfold ensureTeamIds, ensureTeamId. repeat closure_step. Qed.

Lemma ensureTeamIds_emits (gh : GitHub) : emits is_lookup_call (ensureTeamIds gh).
Proof. unfold ensureTeamIds, ensureTeamId. repeat closure_step. Qed.

Lemma ensureTeamIds_respects (gh : GitHub) : respects same_teamIds (ensureTeamIds gh).
Proof. unfold ensureTeamIds, ensureTeamId. repeat closure_step. Qed.

Lemma checkAuthorization_keeps_db (gh : GitHub) : keeps db (checkAuthorization gh).
Proof.
  unfold checkAuthorization, checkTeamMembership, checkOrgMembership,
    ensureTeamIds, ensureTeamId.
  repeat closure_step.
Qed.

Lemma checkAuthorization_emits (gh : GitHub) :
  emits is_github_call (checkAuthorization gh).
Proof.
  unfold checkAuthorization, checkTeamMembership, checkOrgMembership,
    ensureTeamIds, ensureTeamId.
  repeat closure_step.
Qed.

Lemma checkAuthorization_respects (gh : GitHub) :
  respects same_teamIds (checkAuthorization gh).
Proof.
  unfold checkAuthorization, checkTeamMembership, checkOrgMembership,
    ensureTeamIds, ensureTeamId.
  repeat closure_step.
Qed.

Lemma filter_none_of {A} (p q : A -> bool) (l : list A) :
  (forall a, p a = true -> q a = false) ->
  forallb p l = true -> filter q l = [].
Proof.
  intros Hpq. induction l as [| a l IH]; simpl; intros H; [reflexivity |].
  apply andb_true_iff in H. destruct H as [Ha Hl].
  rewrite (Hpq a Ha). auto.
Qed.

(** Resolving the team identifiers asks for no team membership. *)
Lemma ensureTeamIds_no_membership_call (gh : GitHub) (w : World) :
  filter is_membership_call (issued w (snd (ensureTeamIds gh w))) = [].
Proof.
  destruct (ensureTeamIds_emits gh w) as [l [Hl Hp]].
  rewrite (@issued_app _ _ _ Hl).
  apply (@filter_none_of _ is_lookup_call); [| exact Hp].
  intros [] H; try discriminate; reflexivity.
Qed.

(** After a successful lookup of both identifiers the evaluator goes on
    from the cache as the lookup left it. *)
Lemma checkTeamMembership_run (gh : GitHub) (w : World) :
  fst (ensureTeamIds gh w) = inr tt ->
  let resolved := snd (ensureTeamIds gh w) in
  checkTeamMembership gh w =
    match teamIds_access (teamIds resolved), teamIds_admin (teamIds resolved) with
    | Some access_id, Some admin_id =>
        (' (results_access, results_admin) <-
           parallel (access_membership_reports_first env)
             (call (CallBelongsToTeam access_id) (api_belongsToTeam (gh_api gh) access_id))
             (call (CallBelongsToTeam admin_id) (api_belongsToTeam (gh_api gh) admin_id)) ;;
         if results_admin : bool then ret ADMIN
         else if results_access : bool then ret ACCESS
         else ret UNAUTHORIZED) resolved
    | _, _ => (inr UNAUTHORIZED, resolved)
    end.
Proof.
  intros Hids resolved.
  assert (Hrun : ensureTeamIds gh w = (inr tt, resolved))
    by (rewrite <- Hids; apply surjective_pairing).
  unfold checkTeamMembership. unfold bind at 1. rewrite Hrun.
  unfold bind at 1, getTeamIds.
  destruct (teamIds_access (teamIds resolved)), (teamIds_admin (teamIds resolved));
    reflexivity.
Qed.

(** C3: in team-membership mode (both team names configured), once the two
    identifiers have been looked up: if either is unresolved the level is
    UNAUTHORIZED and no team-membership call was made; otherwise, with the
    two membership answers, the level is ADMIN for a member of the admin
    team whatever the access answer, else ACCESS for a member of the access
    team, else UNAUTHORIZED. *)
Theorem checkAuthorization_teams (gh : GitHub) (w : World) :
  truthy (accessTeamName config) && truthy (adminTeamName config) = true ->
  fst (ensureTeamIds gh w) = inr tt ->
  let resolved := snd (ensureTeamIds gh w) in
  (teamIds_access (teamIds resolved) = None \/ teamIds_admin (teamIds resolved) = None ->
   fst (checkAuthorization gh w) = inr UNAUTHORIZED /\
   filter is_membership_call (issued w (snd (checkAuthorization gh w))) = []) /\
  (forall access_id admin_id in_access in_admin,
   teamIds_access (teamIds resolved) = Some access_id ->
   teamIds_admin (teamIds resolved) = Some admin_id ->
   api_belongsToTeam (gh_api gh) access_id = inr in_access ->
   api_belongsToTeam (gh_api gh) admin_id = inr in_admin ->
   fst (checkAuthorization gh w) =
     inr (if in_admin then ADMIN else if in_access then ACCESS else UNAUTHORIZED)).
Proof.
  intros Hmode Hids resolved.
  pose proof (ensureTeamIds_no_membership_call gh w) as Hcalls. fold resolved in Hcalls.
  unfold checkAuthorization. rewrite Hmode.
  rewrite (checkTeamMembership_run gh w Hids). fold resolved.
  split.
  - intros Hnone.
    destruct (teamIds_access (teamIds resolved)) as [a |] eqn:Ea;
      destruct (teamIds_admin (teamIds resolved)) as [d |] eqn:Ed;
      try (split; [reflexivity | exact Hcalls]).
    destruct Hnone; discriminate.
  - intros access_id admin_id in_access in_admin Ha Hd Hma Hmd.
    rewrite Ha, Hd. unfold bind, parallel, call. rewrite Hma, Hmd.
    destruct in_admin, in_access; reflexivity.
Qed.

(** ** Account Synchronizer *)

Lemma find_app {A} (p : A -> bool) (l : list A) (a : A) :
  find p (l ++ [a]) =
    match find p l with
    | Some x => Some x
    | None => if p a then Some a else None
    end.
Proof.
  induction l as [| x l IH]; simpl; [reflexivity |].
  destruct (p x); [reflexivity | exact IH].
Qed.

(** The document [syncUserModel] hands to [save] for an authorized caller. *)
Lemma syncUserModel_run (gh : GitHub) (user : User) (n : Z) (w : World) :
  let levelled := set_account_level user n in
  let synced :=
    match User_account user "github" (profile_id (gh_profile gh)) with
    | Some _ => levelled
    | None => push_account levelled (github_account gh levelled)
    end in
  syncUserModel gh (Some user) (Level n) w =
    match User_save_error env synced with
    | Some err => ((Some (CollaboratorError err), Some synced), record (CallSave synced) w)
    | None => ((None, Some synced), with_db (upsert synced (db w)) (record (CallSave synced) w))
    end.
Proof.
  intros levelled synced. unfold syncUserModel, User_save.
  change (User_account (set_account_level user n)) with (User_account user).
  fold levelled. fold synced.
  destruct (User_save_error env synced); reflexivity.
Qed.

(** After a synchronization the identity of the profile is linked. *)
Lemma synced_is_linked (gh : GitHub) (user : User) (n : Z) :
  let levelled := set_account_level user n in
  let synced :=
    match User_account user "github" (profile_id (gh_profile gh)) with
    | Some _ => levelled
    | None => push_account levelled (github_account gh levelled)
    end in
  exists linked, User_account synced "github" (profile_id (gh_profile gh)) = Some linked.
Proof.
  intros levelled synced. subst synced.
  destruct (User_account user "github" (profile_id (gh_profile gh))) as [a |] eqn:E.
  - exists a. exact E.
  - unfold User_account in *. simpl. rewrite find_app, E. simpl.
    rewrite String.eqb_refl. eexists. reflexivity.
Qed.

(** C8: for an authorized level, if the account has no identity linked for
    (github, external id) exactly one is appended, filled in from the profile
    and the current access token; if it has one the list of identities is
    left as it is; hence a second run for the same external id, whatever the
    token or level, appends nothing.  The level is set and the document is
    written to the store when the store takes it. *)
Theorem syncUserModel_links_once (gh : GitHub) (user : User) (n : Z) (w : World) :
  let external_id := profile_id (gh_profile gh) in
  let run := syncUserModel gh (Some user) (Level n) w in
  exists synced,
    snd (fst run) = Some synced /\
    account_level synced = Some n /\
    (User_account user "github" external_id = None ->
     accounts synced =
       accounts user ++
       [{| account_provider := "github";
           account_id := external_id;
           account_display_url := profileUrl (gh_profile gh);
           account_title := username (gh_profile gh);
           account_config :=
             {| config_accessToken := gh_accessToken gh;
                config_login := username (gh_profile gh);
                config_email := user_email user;
                config_gravatarId := gravatar_id (gh_profile gh);
                config_name := displayName (gh_profile gh) |};
           account_cache := [] |}]) /\
    (forall linked, User_account user "github" external_id = Some linked ->
     accounts synced = accounts user) /\
    (User_save_error env synced = None ->
     fst (fst run) = None /\ db (snd run) = upsert synced (db w)) /\
    (forall gh2 n2 w2, profile_id (gh_profile gh2) = external_id ->
     exists again,
       snd (fst (syncUserModel gh2 (Some synced) (Level n2) w2)) = Some again /\
       accounts again = accounts synced).
Proof.
  intros external_id run. subst run. rewrite syncUserModel_run.
  destruct (synced_is_linked gh user n) as [linked Hlinked].
  fold external_id in Hlinked |- *.
  set (synced := match User_account user "github" external_id with
                 | Some _ => set_account_level user n
                 | None => _
                 end) in *.
  exists synced. repeat split.
  - destruct (User_save_error env synced); reflexivity.
  - subst synced. destruct (User_account user "github" external_id); reflexivity.
  - intros H. subst synced. rewrite H. reflexivity.
  - intros l H. subst synced. rewrite H. reflexivity.
  - rewrite H. reflexivity.
  - rewrite H. reflexivity.
  - intros gh2 n2 w2 Hid. rewrite syncUserModel_run, Hid, Hlinked.
    exists (set_account_level synced n2). split; [| reflexivity].
    destruct (User_save_error env (set_account_level synced n2)); reflexivity.
Qed.

(** ** Orchestrator *)

Lemma User_find_keeps_teamIds (addresses : list string) : keeps teamIds (User_find addresses).
Proof.
  intros w. unfold User_find. destruct (User_find_error env addresses); reflexivity.
Qed.

Lemma User_save_keeps_teamIds (u : User) : keeps teamIds (User_save u).
Proof.
  intros w. unfold User_save. destruct (User_save_error env u); reflexivity.
Qed.

Lemma User_find_emits (addresses : list string) : emits any_call (User_find addresses).
Proof.
  intros w. exists [CallFind addresses]. unfold User_find.
  destruct (User_find_error env addresses); auto.
Qed.

Lemma User_save_emits (u : User) : emits any_call (User_save u).
Proof.
  intros w. exists [CallSave u]. unfold User_save.
  destruct (User_save_error env u); auto.
Qed.

Lemma new_User_emits : emits any_call new_User.
Proof. intros w. exists []. split; [symmetry; apply app_nil_r | reflexivity]. Qed.

Lemma findUser_keeps_teamIds (gh : GitHub) (profile : Profile) :
  keeps teamIds (findUser gh profile).
Proof.
  unfold findUser, emailsFromGitHub.
  repeat first [ apply User_find_keeps_teamIds | apply User_save_keeps_teamIds
               | closure_step ].
Qed.

Lemma findUser_emits (gh : GitHub) (profile : Profile) :
  emits any_call (findUser gh profile).
Proof.
  unfold findUser, emailsFromGitHub.
  repeat first [ apply User_find_emits | apply User_save_emits | apply new_User_emits
               | closure_step ].
Qed.

(** The two branches do not see each other: next to the resolver the
    evaluator derives what it derives alone, and the store is as the
    resolver leaves it. *)
Lemma branches_independent (gh : GitHub) (profile : Profile) (w : World) :
  let resolved := snd (findUser gh profile w) in
  let both := parallel (user_reports_first env)
                       (findUser gh profile) (checkAuthorization gh) w in
  snd both = snd (checkAuthorization gh resolved) /\
  fst (checkAuthorization gh resolved) = fst (checkAuthorization gh w) /\
  db (snd both) = db resolved /\
  filter is_save_call (issued w (snd both)) = filter is_save_call (issued w resolved) /\
  (forall user authorization,
   fst (findUser gh profile w) = inr user ->
   fst (checkAuthorization gh w) = inr authorization ->
   fst both = inr (user, authorization)).
Proof.
  intros resolved both.
  assert (Hsame : same_teamIds resolved w) by apply findUser_keeps_teamIds.
  destruct (checkAuthorization_respects gh Hsame) as [Hfst _].
  assert (Hsnd : snd both = snd (checkAuthorization gh resolved)).
  { subst both resolved. unfold parallel.
    destruct (findUser gh profile w) as [ra w1]. simpl.
    destruct (checkAuthorization gh w1) as [rb w2]. simpl.
    destruct ra, rb; reflexivity. }
  split; [exact Hsnd |]. split; [exact Hfst |]. split; [| split].
  - rewrite Hsnd. apply checkAuthorization_keeps_db.
  - rewrite Hsnd.
    destruct (findUser_emits gh profile w) as [l [Hl _]]. fold resolved in Hl.
    destruct (checkAuthorization_emits gh resolved) as [l' [Hl' Hp']].
    rewrite (@issued_app w resolved l Hl).
    rewrite (@issued_app w _ (l ++ l')) by (rewrite Hl', Hl, app_assoc; reflexivity).
    rewrite filter_app.
    rewrite (@filter_none_of _ is_github_call is_save_call l'); [apply app_nil_r | | exact Hp'].
    intros [] H; try discriminate; reflexivity.
  - intros user authorization Hu Ha. rewrite <- Hfst in Ha.
    clear Hfst Hsnd Hsame. subst both resolved. unfold parallel.
    destruct (findUser gh profile w) as [ra w1]. simpl in *.
    destruct (checkAuthorization gh w1) as [rb w2]. simpl in *.
    subst ra rb. reflexivity.
Qed.

Lemma syncUserModel_guard (gh : GitHub) (account : option User)
    (authorization : Authorization) (w : World) :
  account = None \/ authorization = UNAUTHORIZED ->
  syncUserModel gh account authorization w = ((None, None), w).
Proof.
  intros [-> | ->]; unfold syncUserModel; [| destruct account]; reflexivity.
Qed.

(** A document the resolver returns is in the store when it returns. *)
Lemma findUser_stores_result (gh : GitHub) (profile : Profile) (w : World) (user : User) :
  fst (findUser gh profile w) = inr user ->
  In user (db (snd (findUser gh profile w))).
Proof.
  destruct (fst (emailsFromGitHub gh w)) as [e | [addresses primary]] eqn:He.
  - unfold findUser, bind. rewrite (emailsFromGitHub_run gh w He). discriminate.
  - destruct (User_find_error env addresses) as [err |] eqn:Hf.
    + unfold findUser, bind. rewrite (emailsFromGitHub_run gh w He).
      unfold User_find. rewrite Hf. discriminate.
    + rewrite (findUser_run gh profile w He Hf).
      destruct (filter (email_in addresses) (db w)) as [| first [| second rest]] eqn:Hr.
      * destruct (User_save_error env (created_user w primary)); [discriminate |].
        simpl. intros H. injection H as <-.
        apply in_or_app. right. left. reflexivity.
      * simpl. intros H. injection H as <-.
        assert (Hin : In first (filter (email_in addresses) (db w)))
          by (rewrite Hr; left; reflexivity).
        apply filter_In in Hin. apply Hin.
      * discriminate.
Qed.

(** C1: for every attempt with a resolved account whose derived level is
    UNAUTHORIZED, the attempt fails with AuthorizationDenied, which is no
    collaborator (transport) error, and the synchronizer writes nothing: the
    store is as the resolver left it, the resolved account is in it as it was
    resolved (level and linked identities untouched), and the only writes
    asked of the store are the resolver's.  The synchronizer itself returns
    at once, with the world as it was and hence no save issued, for an
    UNAUTHORIZED level and for an absent account alike, and the denial does
    not depend on the account. *)
Theorem unauthorized_is_denied_without_write (accessToken refreshToken : string)
    (profile : Profile) (w : World) (user : User) :
  let gh := {| gh_profile := profile; gh_accessToken := accessToken;
               gh_api := GitHub_remote env profile accessToken |} in
  fst (findUser gh profile w) = inr user ->
  fst (checkAuthorization gh w) = inr UNAUTHORIZED ->
  let attempt := makeStrategyCallback accessToken refreshToken profile w in
  fst attempt = (Some AuthorizationDenied, None) /\
  db (snd attempt) = db (snd (findUser gh profile w)) /\
  In user (db (snd attempt)) /\
  filter is_save_call (issued w (snd attempt)) =
    filter is_save_call (issued w (snd (findUser gh profile w))) /\
  (forall account w0, syncUserModel gh account UNAUTHORIZED w0 = ((None, None), w0)) /\
  (forall authorization w0, syncUserModel gh None authorization w0 = ((None, None), w0)) /\
  (forall account w0,
   merge gh account UNAUTHORIZED w0 = ((Some AuthorizationDenied, None), w0)) /\
  (forall message, AuthorizationDenied <> CollaboratorError message).
Proof.
  intros gh Hu Ha attempt.
  destruct (branches_independent gh profile w) as [_ [_ [Hdb [Hsaves Hboth]]]].
  specialize (Hboth user UNAUTHORIZED Hu Ha).
  assert (Hrun : attempt =
            ((Some AuthorizationDenied, None),
             snd (parallel (user_reports_first env)
                           (findUser gh profile) (checkAuthorization gh) w))).
  { subst attempt. unfold makeStrategyCallback. fold gh.
    destruct (parallel (user_reports_first env) (findUser gh profile)
                       (checkAuthorization gh) w) as [r w'].
    simpl in Hboth. subst r. reflexivity. }
  rewrite Hrun. simpl fst. simpl snd.
  split; [reflexivity |]. split; [exact Hdb |].
  split; [rewrite Hdb; apply findUser_stores_result; exact Hu |].
  split; [exact Hsaves |].
  split; [| split; [| split]].
  - intros account w0. apply syncUserModel_guard. right. reflexivity.
  - intros authorization w0. apply syncUserModel_guard. left. reflexivity.
  - intros account w0. reflexivity.
  - intros message. discriminate.
Qed.

(** C9: when the verified addresses match no stored account, the store takes
    the write and the derived level is UNAUTHORIZED, the attempt fails with
    AuthorizationDenied and the account the resolver created is in the store
    all the same: the creation is not undone. *)
Theorem unauthorized_newcomer_stays_created (accessToken refreshToken : string)
    (profile : Profile) (w : World) (addresses : list string) (primary : option string) :
  let gh := {| gh_profile := profile; gh_accessToken := accessToken;
               gh_api := GitHub_remote env profile accessToken |} in
  let user :=
    {| _id := fresh_id (db w); user_email := primary;
       created := Some (Date_now env);
       password := Some (crypto_randomBytes env);
       projects := []; accounts := []; account_level := None |} in
  fst (emailsFromGitHub gh w) = inr (addresses, primary) ->
  User_find_error env addresses = None ->
  filter (email_in addresses) (db w) = [] ->
  User_save_error env user = None ->
  fst (checkAuthorization gh w) = inr UNAUTHORIZED ->
  let attempt := makeStrategyCallback accessToken refreshToken profile w in
  fst attempt = (Some AuthorizationDenied, None) /\
  db (snd attempt) = db w ++ [user] /\
  filter is_save_call (issued w (snd attempt)) = [CallSave user].
Proof.
  intros gh user He Hf Hr Hs Ha attempt.
  pose proof (findUser_run gh profile w He Hf) as Hfind.
  simpl in Hfind. rewrite Hr in Hfind. fold (created_user w primary) in Hfind.
  change (created_user w primary) with user in Hfind. rewrite Hs in Hfind.
  destruct (branches_independent gh profile w) as [_ [_ [Hdb [Hsaves Hboth]]]].
  specialize (Hboth user UNAUTHORIZED).
  rewrite Hfind in Hdb, Hsaves, Hboth. specialize (Hboth eq_refl Ha).
  assert (Hrun : attempt =
            ((Some AuthorizationDenied, None),
             snd (parallel (user_reports_first env)
                           (findUser gh profile) (checkAuthorization gh) w))).
  { subst attempt. unfold makeStrategyCallback. fold gh.
    destruct (parallel (user_reports_first env) (findUser gh profile)
                       (checkAuthorization gh) w) as [r w'].
    simpl in Hboth. subst r. reflexivity. }
  rewrite Hrun. simpl fst. simpl snd. repeat split.
  - exact Hdb.
  - rewrite Hsaves. issued_calls. reflexivity.
Qed.

(** C10: two invocations of the entry point that differ in the refresh
    token only end with the same error, the same account and the same state:
    the refresh token is never read. *)
Theorem refreshToken_is_ignored (accessToken refreshToken1 refreshToken2 : string)
    (profile : Profile) (w : World) :
  makeStrategyCallback accessToken refreshToken1 profile w =
  makeStrategyCallback accessToken refreshToken2 profile w.
Proof. reflexivity. Qed.

(** * Further properties of the code *)

(** ** The resolver and the addresses *)

(** What a successful normalization was computed from. *)
Lemma emailsFromGitHub_answer (gh : GitHub) (w : World)
    (addresses : list string) (primary : option string) :
  fst (emailsFromGitHub gh w) = inr (addresses, primary) ->
  exists emails,
    api_emails (gh_api gh) = inr emails /\
    filter entry_verified emails <> [] /\
    addresses = map downcased (filter entry_verified emails) /\
    primary =
      (let assigned := snd (map_downcased None (filter entry_verified emails)) in
       if negb (truthy assigned) then hd_error addresses else assigned).
Proof.
  unfold emailsFromGitHub, bind, call.
  destruct (api_emails (gh_api gh)) as [err | emails]; simpl; [discriminate |].
  intros H. exists emails. split; [reflexivity |].
  destruct (filter entry_verified emails) as [| e rest] eqn:Hv; [discriminate |].
  split; [discriminate |].
  change (List.length (e :: rest) =? 0)%nat with false in H. cbv iota in H.
  pose proof (map_downcased_addresses (e :: rest) None) as Ha.
  destruct (map_downcased None (e :: rest)) as [addresses' assigned].
  simpl fst in Ha. simpl snd. simpl in H. injection H as <- <-.
  split; [exact Ha | reflexivity].
Qed.

Lemma emailsFromGitHub_primary (gh : GitHub) (w : World)
    (addresses : list string) (primary : option string) :
  fst (emailsFromGitHub gh w) = inr (addresses, primary) ->
  addresses <> [] /\ exists p, primary = Some p /\ In p addresses.
Proof.
  intros H. destruct (emailsFromGitHub_answer gh w H) as [emails [_ [Hv [Ha Hp]]]].
  set (verified := filter entry_verified emails) in *.
  split.
  - rewrite Ha. destruct verified; [contradiction | discriminate].
  - pose proof (@map_downcased_primary verified None eq_refl) as Hassigned.
    simpl in Hp.
    destruct (find claims_primary verified) as [e |] eqn:Hf.
    + rewrite Hassigned in Hp. rewrite (find_claims_primary_truthy _ Hf) in Hp.
      simpl in Hp. exists (downcased e). split; [exact Hp |].
      rewrite Ha. apply in_map. apply find_some in Hf. apply Hf.
    + rewrite Hassigned in Hp. simpl in Hp.
      destruct verified as [| e rest]; [contradiction |].
      rewrite Ha in *. simpl in Hp. exists (downcased e).
      split; [exact Hp | left; reflexivity].
Qed.

(** X1: whenever the normalizer succeeds there is at least one candidate
    address and the primary is a string that is one of the candidates. *)
Theorem primary_is_a_candidate (gh : GitHub) (w : World)
    (addresses : list string) (primary : option string) :
  fst (emailsFromGitHub gh w) = inr (addresses, primary) ->
  addresses <> [] /\ exists p, primary = Some p /\ In p addresses.
Proof. apply emailsFromGitHub_primary. Qed.

(** X2: when the addresses cannot be had, because the provider fails or no
    address is verified, the resolver fails with that very error and the
    store is neither queried nor written. *)
Theorem findUser_fails_before_the_store (gh : GitHub) (profile : Profile) (w : World)
    (e : Error) :
  fst (emailsFromGitHub gh w) = inl e ->
  findUser gh profile w = (inl e, record CallEmails w) /\
  (e = NoVerifiedEmail \/ exists message, e = CollaboratorError message).
Proof.
  intros H. split.
  - unfold findUser, bind. rewrite (emailsFromGitHub_run gh w H). reflexivity.
  - revert H. unfold emailsFromGitHub, bind, call.
    destruct (api_emails (gh_api gh)) as [err | emails]; simpl.
    + intros H. injection H as <-. right. exists err. reflexivity.
    + destruct (List.length (filter entry_verified emails) =? 0)%nat.
      * intros H. injection H as <-. left. reflexivity.
      * destruct (map_downcased None (filter entry_verified emails)). discriminate.
Qed.

(** X3: an error of the store query is handed on as it is; nothing is
    created and no write is asked of the store. *)
Theorem findUser_query_error (gh : GitHub) (profile : Profile) (w : World)
    (addresses : list string) (primary : option string) (err : string) :
  fst (emailsFromGitHub gh w) = inr (addresses, primary) ->
  User_find_error env addresses = Some err ->
  findUser gh profile w =
    (inl (CollaboratorError err), record (CallFind addresses) (record CallEmails w)).
Proof.
  intros He Hf. unfold findUser, bind. rewrite (emailsFromGitHub_run gh w He).
  unfold User_find. rewrite Hf. reflexivity.
Qed.

(** X4: when nothing matches and the store refuses the new document, the
    resolver fails with the store's error: one write was asked, and the
    store holds what it held. *)
Theorem findUser_save_refused (gh : GitHub) (profile : Profile) (w : World)
    (addresses : list string) (primary : option string) (err : string) :
  let user :=
    {| _id := fresh_id (db w); user_email := primary;
       created := Some (Date_now env);
       password := Some (crypto_randomBytes env);
       projects := []; accounts := []; account_level := None |} in
  fst (emailsFromGitHub gh w) = inr (addresses, primary) ->
  User_find_error env addresses = None ->
  filter (email_in addresses) (db w) = [] ->
  User_save_error env user = Some err ->
  let w' := snd (findUser gh profile w) in
  fst (findUser gh profile w) = inl (CollaboratorError err) /\
  db w' = db w /\
  filter is_save_call (issued w w') = [CallSave user].
Proof.
  intros user He Hf Hr Hs w'. subst w'.
  rewrite (findUser_run gh profile w He Hf). fold (created_user w primary).
  change (created_user w primary) with user. rewrite Hr, Hs. simpl.
  repeat split. issued_calls. reflexivity.
Qed.

(** What the normalizer yields depends on the client only. *)
Lemma emailsFromGitHub_any_world (gh : GitHub) (w1 w2 : World) :
  fst (emailsFromGitHub gh w1) = fst (emailsFromGitHub gh w2).
Proof.
  unfold emailsFromGitHub, bind, call.
  destruct (api_emails (gh_api gh)) as [err | emails]; simpl; [reflexivity |].
  destruct (List.length (filter entry_verified emails) =? 0)%nat; [reflexivity |].
  destruct (map_downcased None (filter entry_verified emails)). reflexivity.
Qed.

Lemma email_in_primary (addresses : list string) (p : string) (u : User) :
  user_email u = Some p -> In p addresses -> email_in addresses u = true.
Proof.
  intros Hu Hin. unfold email_in. rewrite Hu. apply existsb_exists.
  exists p. split; [exact Hin | apply String.eqb_refl].
Qed.


(** ** The evaluator and the cache *)

(** X6: in organization mode the evaluator makes exactly one call, the
    membership query for the configured organization, whatever the answer;
    the cache of team identifiers is not touched, and a failure of the query
    is the evaluator's failure. *)
Theorem organization_mode_asks_once (gh : GitHub) (w : World) :
  truthy (accessTeamName config) && truthy (adminTeamName config) = false ->
  snd (checkAuthorization gh w) = record (CallBelongsToOrganization (orgName config)) w /\
  (forall err,
   api_belongsToOrganization (gh_api gh) (orgName config) = inl err ->
   fst (checkAuthorization gh w) = inl (CollaboratorError err)).
Proof.
  intros Hmode. unfold checkAuthorization. rewrite Hmode.
  unfold checkOrgMembership, bind, call.
  destruct (api_belongsToOrganization (gh_api gh) (orgName config))
    as [err | [isMember isAdmin]].
  - split; [reflexivity |]. intros err' H. injection H as <-. reflexivity.
  - split; [| discriminate]. destruct isMember, isAdmin; reflexivity.
Qed.

Lemma ensureTeamIds_cached (gh : GitHub) (w : World) (access_id admin_id : Z) :
  teamIds_access (teamIds w) = Some access_id ->
  teamIds_admin (teamIds w) = Some admin_id ->
  ensureTeamIds gh w = (inr tt, w).
Proof.
  intros Ha Hd. unfold ensureTeamIds, bind, parallel.
  rewrite (@ensureTeamId_cached gh access w access_id Ha).
  rewrite (@ensureTeamId_cached gh admin w admin_id Hd). reflexivity.
Qed.

(** X7: in team mode with both identifiers cached the evaluator looks no
    team up: it makes the two membership calls, for the access team then
    for the admin team, and leaves the cache as it is. *)
Theorem team_mode_uses_cached_ids (gh : GitHub) (w : World) (access_id admin_id : Z) :
  truthy (accessTeamName config) && truthy (adminTeamName config) = true ->
  teamIds_access (teamIds w) = Some access_id ->
  teamIds_admin (teamIds w) = Some admin_id ->
  snd (checkAuthorization gh w) =
    record (CallBelongsToTeam admin_id) (record (CallBelongsToTeam access_id) w).
Proof.
  intros Hmode Ha Hd. unfold checkAuthorization. rewrite Hmode.
  assert (Hids : fst (ensureTeamIds gh w) = inr tt)
    by (rewrite (ensureTeamIds_cached gh w Ha Hd); reflexivity).
  rewrite (checkTeamMembership_run gh w Hids).
  rewrite (ensureTeamIds_cached gh w Ha Hd). simpl snd. rewrite Ha, Hd.
  unfold bind, parallel, call.
  destruct (api_belongsToTeam (gh_api gh) access_id) as [e1 | [|]],
           (api_belongsToTeam (gh_api gh) admin_id) as [e2 | [|]]; reflexivity.
Qed.

(** X8: starting with an empty cache and two configured names that the API
    resolves, the evaluator asks for the access team, then the admin team,
    then the two memberships, and leaves both identifiers cached. *)
Theorem team_mode_first_evaluation (gh : GitHub) (w : World)
    (access_name admin_name : string) (access_id admin_id : Z) :
  accessTeamName config = Some access_name -> access_name <> EmptyString ->
  adminTeamName config = Some admin_name -> admin_name <> EmptyString ->
  teamIds w = teamIds_init ->
  api_findTeamWithName (gh_api gh) (orgName config) access_name = inr (Some access_id) ->
  api_findTeamWithName (gh_api gh) (orgName config) admin_name = inr (Some admin_id) ->
  let w' := snd (checkAuthorization gh w) in
  issued w w' =
    [CallFindTeamWithName (orgName config) access_name;
     CallFindTeamWithName (orgName config) admin_name;
     CallBelongsToTeam access_id; CallBelongsToTeam admin_id] /\
  teamIds w' = {| teamIds_access := Some access_id; teamIds_admin := Some admin_id |}.
Proof.
  intros Han Hane Hdn Hdne Hempty Hla Hld w'. subst w'.
  assert (Hmode : truthy (accessTeamName config) && truthy (adminTeamName config) = true)
    by (rewrite Han, Hdn, (truthy_Some Hane), (truthy_Some Hdne); reflexivity).
  unfold checkAuthorization. rewrite Hmode.
  assert (Hrun : ensureTeamIds gh w =
            (inr tt,
             with_teamIds {| teamIds_access := Some access_id; teamIds_admin := Some admin_id |}
               (record (CallFindTeamWithName (orgName config) admin_name)
                  (record (CallFindTeamWithName (orgName config) access_name) w)))).
  { unfold ensureTeamIds, bind, parallel.
    rewrite (@ensureTeamId_lookup gh access w access_name); simpl;
      [| rewrite Hempty; reflexivity | exact Han | exact Hane].
    rewrite Hla.
    rewrite (@ensureTeamId_lookup gh admin _ admin_name); simpl;
      [| rewrite Hempty; reflexivity | exact Hdn | exact Hdne].
    rewrite Hld, Hempty. reflexivity. }
  assert (Hids : fst (ensureTeamIds gh w) = inr tt) by (rewrite Hrun; reflexivity).
  rewrite (checkTeamMembership_run gh w Hids). rewrite Hrun. simpl.
  unfold bind, parallel, call.
  destruct (api_belongsToTeam (gh_api gh) access_id) as [e1 | [|]],
           (api_belongsToTeam (gh_api gh) admin_id) as [e2 | [|]];
    (split; [issued_calls; reflexivity | reflexivity]).
Qed.

(** X9: when the lookup of the access team fails while the admin team is
    found, the evaluator fails with the error of the failed lookup and asks
    for no membership, yet the identifier that was found stays cached: a
    later attempt only has the failed lookup to repeat. *)
Theorem lookup_failure_keeps_the_other_id (gh : GitHub) (w : World)
    (access_name admin_name err : string) (admin_id : Z) :
  accessTeamName config = Some access_name -> access_name <> EmptyString ->
  adminTeamName config = Some admin_name -> admin_name <> EmptyString ->
  teamIds w = teamIds_init ->
  api_findTeamWithName (gh_api gh) (orgName config) access_name = inl err ->
  api_findTeamWithName (gh_api gh) (orgName config) admin_name = inr (Some admin_id) ->
  let w' := snd (checkAuthorization gh w) in
  fst (checkAuthorization gh w) = inl (CollaboratorError err) /\
  teamIds w' = {| teamIds_access := None; teamIds_admin := Some admin_id |} /\
  filter is_membership_call (issued w w') = [] /\
  (forall gh2,
   issued w' (snd (ensureTeamIds gh2 w')) =
     [CallFindTeamWithName (orgName config) access_name]).
Proof.
  intros Han Hane Hdn Hdne Hempty Hla Hld w'. subst w'.
  assert (Hmode : truthy (accessTeamName config) && truthy (adminTeamName config) = true)
    by (rewrite Han, Hdn, (truthy_Some Hane), (truthy_Some Hdne); reflexivity).
  set (w1 := record (CallFindTeamWithName (orgName config) access_name) w).
  set (w2 := with_teamIds {| teamIds_access := None; teamIds_admin := Some admin_id |}
               (record (CallFindTeamWithName (orgName config) admin_name) w1)).
  assert (Hrun : checkAuthorization gh w = (inl (CollaboratorError err), w2)).
  { unfold checkAuthorization. rewrite Hmode.
    unfold checkTeamMembership, ensureTeamIds, bind, parallel.
    rewrite (@ensureTeamId_lookup gh access w access_name); simpl;
      [| rewrite Hempty; reflexivity | exact Han | exact Hane].
    rewrite Hla. fold w1.
    rewrite (@ensureTeamId_lookup gh admin w1 admin_name); simpl;
      [| rewrite Hempty; reflexivity | exact Hdn | exact Hdne].
    rewrite Hld, Hempty. reflexivity. }
  rewrite Hrun. simpl fst. simpl snd.
  split; [reflexivity |]. split; [reflexivity |]. split.
  - subst w2 w1. issued_calls. reflexivity.
  - intros gh2. unfold ensureTeamIds, bind, parallel.
    rewrite (@ensureTeamId_lookup gh2 access w2 access_name);
      [| reflexivity | exact Han | exact Hane].
    assert (Hcached : forall w3, teamIds_admin (teamIds w3) = Some admin_id ->
              ensureTeamId gh2 admin w3 = (inr tt, w3)).
    { intros w3 H3. apply (@ensureTeamId_cached gh2 admin w3 admin_id). exact H3. }
    destruct (api_findTeamWithName (gh_api gh2) (orgName config) access_name)
      as [e | [i |]];
      rewrite Hcached by reflexivity; simpl; apply issued_app; reflexivity.
Qed.

(** X10: in team mode with both identifiers resolved, a membership call
    that fails makes the evaluator fail with that error whatever the other
    membership says: an established admin membership does not make up for
    a failed access call, nor the other way round. *)
Theorem membership_failure_fails_the_evaluation (gh : GitHub) (w : World)
    (access_id admin_id : Z) (err : string) (other : bool) :
  truthy (accessTeamName config) && truthy (adminTeamName config) = true ->
  fst (ensureTeamIds gh w) = inr tt ->
  let resolved := snd (ensureTeamIds gh w) in
  teamIds_access (teamIds resolved) = Some access_id ->
  teamIds_admin (teamIds resolved) = Some admin_id ->
  (api_belongsToTeam (gh_api gh) access_id = inl err ->
   api_belongsToTeam (gh_api gh) admin_id = inr other ->
   fst (checkAuthorization gh w) = inl (CollaboratorError err)) /\
  (api_belongsToTeam (gh_api gh) access_id = inr other ->
   api_belongsToTeam (gh_api gh) admin_id = inl err ->
   fst (checkAuthorization gh w) = inl (CollaboratorError err)).
Proof.
  intros Hmode Hids resolved Ha Hd.
  unfold checkAuthorization. rewrite Hmode.
  rewrite (checkTeamMembership_run gh w Hids). fold resolved. rewrite Ha, Hd.
  unfold bind, parallel, call.
  split; intros H1 H2; rewrite H1, H2; reflexivity.
Qed.

Section Preservation.

Context {A B : Type}.
Variable P : World -> Prop.

Lemma preserves_ret (a : A) : preserves P (ret a).
Proof. intros w H. exact H. Qed.

Lemma preserves_fail (e : Error) : preserves P (@fail A e).
Proof. intros w H. exact H. Qed.

Lemma preserves_bind (m : M A) (k : A -> M B) :
  preserves P m -> (forall a, preserves P (k a)) -> preserves P (bind m k).
Proof.
  intros Hm Hk w H. unfold bind. specialize (Hm w H).
  destruct (m w) as [[e | a] w']; simpl in *; [exact Hm | apply Hk; exact Hm].
Qed.

Lemma preserves_parallel (o : bool) (a : M A) (b : M B) :
  preserves P a -> preserves P b -> preserves P (parallel o a b).
Proof.
  intros Ha Hb w H. unfold parallel. specialize (Ha w H).
  destruct (a w) as [ra w1]. specialize (Hb w1 Ha).
  destruct (b w1) as [rb w2]. simpl in *. destruct ra, rb; exact Hb.
Qed.

Lemma preserves_call (c : Call) (r : Response A) :
  (forall c w, P w -> P (record c w)) -> preserves P (call c r).
Proof. intros HP w H. unfold call. destruct r; simpl; apply HP; exact H. Qed.

End Preservation.

Lemma populated_record (teamType : TeamType) (id : Z) (c : Call) (w : World) :
  populated teamType id w -> populated teamType id (record c w).
Proof. intros H. exact H. Qed.

(** A populated entry makes [ensureTeamId] for its role return at once, and
    the other role's lookup writes the other entry only. *)
Lemma ensureTeamId_preserves_populated (gh : GitHub) (teamType role : TeamType) (id : Z) :
  preserves (populated role id) (ensureTeamId gh teamType).
Proof.
  intros w H. unfold populated in *.
  destruct (teamIds_get (teamIds w) teamType) as [cached |] eqn:Hc.
  - rewrite (@ensureTeamId_cached gh teamType w cached Hc). exact H.
  - destruct (truthy (config_TeamName config teamType)) eqn:Ht.
    + destruct (config_TeamName config teamType) as [name |] eqn:Hn; [| discriminate].
      assert (Hne : name <> EmptyString).
      { intros ->. discriminate. }
      rewrite (@ensureTeamId_lookup gh teamType w name Hc Hn Hne).
      destruct (api_findTeamWithName (gh_api gh) (orgName config) name) as [e | [i |]];
        simpl; try exact H.
      destruct teamType, role; simpl in *; congruence.
    + rewrite (@ensureTeamId_unconfigured gh teamType w Ht). exact H.
Qed.

Lemma checkAuthorization_preserves_populated (gh : GitHub) (role : TeamType) (id : Z) :
  preserves (populated role id) (checkAuthorization gh).
Proof.
  unfold checkAuthorization, checkTeamMembership, checkOrgMembership, ensureTeamIds.
  repeat first
    [ apply ensureTeamId_preserves_populated
    | apply preserves_ret | apply preserves_fail | apply preserves_parallel
    | apply preserves_bind; [| intros ?]
    | apply preserves_call; apply populated_record
    | match goal with
      | |- preserves _ getTeamIds => intros ? ?; assumption
      | |- preserves _ (match ?x with _ => _ end) => destruct x
      end ].
Qed.

Lemma syncUserModel_teamIds (gh : GitHub) (account : option User)
    (authorization : Authorization) (w : World) :
  teamIds (snd (syncUserModel gh account authorization w)) = teamIds w.
Proof.
  unfold syncUserModel, User_save.
  destruct account as [user |], authorization as [| n]; try reflexivity.
  match goal with |- context [User_save_error env ?u] =>
    destruct (User_save_error env u) end; reflexivity.
Qed.

(** The cache after an attempt is the cache the evaluator alone leaves. *)
Lemma makeStrategyCallback_teamIds (accessToken refreshToken : string)
    (profile : Profile) (w : World) :
  let gh := {| gh_profile := profile; gh_accessToken := accessToken;
               gh_api := GitHub_remote env profile accessToken |} in
  teamIds (snd (makeStrategyCallback accessToken refreshToken profile w)) =
  teamIds (snd (checkAuthorization gh w)).
Proof.
  intros gh.
  destruct (branches_independent gh profile w) as [Hsnd _].
  assert (Hsame : same_teamIds (snd (findUser gh profile w)) w)
    by apply findUser_keeps_teamIds.
  destruct (checkAuthorization_respects gh Hsame) as [_ Hcache].
  unfold same_teamIds in Hcache. rewrite <- Hcache, <- Hsnd.
  unfold makeStrategyCallback. fold gh.
  destruct (parallel (user_reports_first env) (findUser gh profile)
                     (checkAuthorization gh) w) as [[e | [user authorization]] w'].
  - reflexivity.
  - simpl snd. unfold merge. destruct authorization; [reflexivity |].
    apply syncUserModel_teamIds.
Qed.

(** X11: a team identifier, once cached, is never replaced or dropped: the
    entry holds the same identifier after any evaluation and after any whole
    attempt, whatever the collaborators answer then. *)
Theorem cached_team_id_is_final (accessToken refreshToken : string)
    (profile : Profile) (gh : GitHub) (w : World) (role : TeamType) (id : Z) :
  teamIds_get (teamIds w) role = Some id ->
  teamIds_get (teamIds (snd (checkAuthorization gh w))) role = Some id /\
  teamIds_get (teamIds (snd (makeStrategyCallback accessToken refreshToken profile w))) role
    = Some id.
Proof.
  intros H. split.
  - apply (@checkAuthorization_preserves_populated gh role id w H).
  - rewrite makeStrategyCallback_teamIds.
    apply (@checkAuthorization_preserves_populated _ role id w H).
Qed.

(** X12: the evaluator performs no persistence: in either mode and whatever
    the answers, the store holds what it held and neither a query nor a
    write was asked of it. *)
Theorem evaluator_never_touches_the_store (gh : GitHub) (w : World) :
  db (snd (checkAuthorization gh w)) = db w /\
  filter is_store_call (issued w (snd (checkAuthorization gh w))) = [].
Proof.
  split; [apply checkAuthorization_keeps_db |].
  destruct (checkAuthorization_emits gh w) as [l [Hl Hp]].
  rewrite (@issued_app _ _ _ Hl).
  apply (@filter_none_of _ is_github_call); [| exact Hp].
  intros [] H; try discriminate; reflexivity.
Qed.

(** ** The two branches side by side *)

Lemma User_find_respects_db (addresses : list string) :
  respects same_db (User_find addresses).
Proof.
  intros w1 w2 H. unfold same_db in *. unfold User_find.
  destruct (User_find_error env addresses); simpl; [auto |].
  rewrite H. auto.
Qed.

Lemma new_User_respects_db : respects same_db new_User.
Proof.
  intros w1 w2 H. unfold same_db in *. unfold new_User. simpl.
  rewrite H. auto.
Qed.

Lemma User_save_respects_db (u : User) : respects same_db (User_save u).
Proof.
  intros w1 w2 H. unfold same_db in *. unfold User_save.
  destruct (User_save_error env u); simpl; [auto |].
  rewrite H. auto.
Qed.

Lemma findUser_respects_db (gh : GitHub) (profile : Profile) :
  respects same_db (findUser gh profile).
Proof.
  unfold findUser, emailsFromGitHub.
  repeat first
    [ apply User_find_respects_db | apply User_save_respects_db
    | apply new_User_respects_db
    | apply respects_ret | apply respects_fail
    | apply respects_bind; [| intros ?]
    | apply respects_call; exact same_db_record
    | match goal with
      | |- respects _ (match ?x with _ => _ end) => destruct x
      end ].
Qed.

(** X13: the resolver and the evaluator do not interfere, so the order in
    which [async.parallel] lets them run does not matter: each yields what
    it yields alone, and the store and the cache end up the same whichever
    goes first.  The resolver leaves the cache alone. *)
Theorem branches_commute (gh : GitHub) (profile : Profile) (w : World) :
  let resolver_first := snd (checkAuthorization gh (snd (findUser gh profile w))) in
  let evaluator_first := snd (findUser gh profile (snd (checkAuthorization gh w))) in
  fst (findUser gh profile (snd (checkAuthorization gh w))) = fst (findUser gh profile w) /\
  fst (checkAuthorization gh (snd (findUser gh profile w))) = fst (checkAuthorization gh w) /\
  db resolver_first = db evaluator_first /\
  teamIds resolver_first = teamIds evaluator_first /\
  teamIds (snd (findUser gh profile w)) = teamIds w.
Proof.
  intros resolver_first evaluator_first.
  assert (Hdb : same_db (snd (checkAuthorization gh w)) w)
    by apply checkAuthorization_keeps_db.
  assert (Hcache : same_teamIds (snd (findUser gh profile w)) w)
    by apply findUser_keeps_teamIds.
  destruct (findUser_respects_db gh profile Hdb) as [Hu Hdb'].
  destruct (checkAuthorization_respects gh Hcache) as [Ha Hcache'].
  unfold same_db, same_teamIds in *.
  split; [exact Hu |]. split; [exact Ha |]. split; [| split].
  - subst resolver_first evaluator_first.
    rewrite Hdb'. apply checkAuthorization_keeps_db.
  - subst resolver_first evaluator_first.
    rewrite Hcache'. symmetry. apply findUser_keeps_teamIds.
  - exact Hcache.
Qed.

(** ** The whole attempt *)

(** Every way [findUser] can end: with an error and the store as it was,
    with a stored document and the store as it was, or with a new document
    added at the end of the store. *)
Lemma findUser_cases (gh : GitHub) (profile : Profile) (w : World) :
  let w' := snd (findUser gh profile w) in
  (exists e, fst (findUser gh profile w) = inl e /\ db w' = db w) \/
  (exists found, fst (findUser gh profile w) = inr found /\
     In found (db w) /\ db w' = db w) \/
  (exists new, fst (findUser gh profile w) = inr new /\ db w' = db w ++ [new]).
Proof.
  intros w'. subst w'.
  destruct (fst (emailsFromGitHub gh w)) as [e | [addresses primary]] eqn:He.
  - left. exists e. unfold findUser, bind.
    rewrite (emailsFromGitHub_run gh w He). split; reflexivity.
  - destruct (User_find_error env addresses) as [err |] eqn:Hf.
    + left. exists (CollaboratorError err). unfold findUser, bind.
      rewrite (emailsFromGitHub_run gh w He). unfold User_find. rewrite Hf.
      split; reflexivity.
    + rewrite (findUser_run gh profile w He Hf).
      destruct (filter (email_in addresses) (db w)) as [| first [| second rest]] eqn:Hr.
      * destruct (User_save_error env (created_user w primary)) as [err |].
        -- left. eexists. split; reflexivity.
        -- right. right. eexists. split; reflexivity.
      * right. left. exists first. repeat split.
        assert (Hin : In first (filter (email_in addresses) (db w)))
          by (rewrite Hr; left; reflexivity).
        apply filter_In in Hin. apply Hin.
      * left. eexists. split; reflexivity.
Qed.

Lemma upsert_stored_ids (u : User) (d : list User) :
  (exists v, In v d /\ _id v = _id u) ->
  map _id (upsert u d) = map _id d /\ In u (upsert u d).
Proof.
  intros [v [Hin Hid]]. unfold upsert.
  assert (He : existsb (fun x => (_id x =? _id u)%nat) d = true).
  { apply existsb_exists. exists v. split; [exact Hin | apply Nat.eqb_eq; exact Hid]. }
  rewrite He. split.
  - clear. induction d as [| x d IH]; simpl; [reflexivity |].
    rewrite IH. destruct (Nat.eqb_spec (_id x) (_id u)) as [E | _]; congruence.
  - apply in_map_iff. exists v. split; [| exact Hin].
    rewrite (proj2 (Nat.eqb_eq _ _) Hid). reflexivity.
Qed.

(** Writing a document over the one that was added last. *)
Lemma upsert_last (u c : User) (d : list User) :
  _id c = fresh_id d -> _id u = _id c -> upsert u (d ++ [c]) = d ++ [u].
Proof.
  intros Hc Hu. unfold upsert.
  rewrite existsb_app. simpl. rewrite Hu, Nat.eqb_refl, orb_true_r. simpl.
  rewrite map_app. simpl. rewrite Nat.eqb_refl. f_equal.
  rewrite <- (map_id d) at 2. apply map_ext_in. intros v Hv.
  apply fresh_id_above in Hv.
  destruct (Nat.eqb_spec (_id v) (_id c)); [lia | reflexivity].
Qed.

(** With both branches successful the attempt is the synchronization of
    their results, on the store the resolver left. *)
Lemma makeStrategyCallback_run (accessToken refreshToken : string) (profile : Profile)
    (w : World) (user : User) (authorization : Authorization) :
  let gh := {| gh_profile := profile; gh_accessToken := accessToken;
               gh_api := GitHub_remote env profile accessToken |} in
  fst (findUser gh profile w) = inr user ->
  fst (checkAuthorization gh w) = inr authorization ->
  exists w',
    db w' = db (snd (findUser gh profile w)) /\
    makeStrategyCallback accessToken refreshToken profile w =
      merge gh (Some user) authorization w'.
Proof.
  intros gh Hu Ha.
  destruct (branches_independent gh profile w) as [_ [_ [Hdb [_ Hboth]]]].
  specialize (Hboth user authorization Hu Ha).
  exists (snd (parallel (user_reports_first env) (findUser gh profile)
                        (checkAuthorization gh) w)).
  split; [exact Hdb |].
  unfold makeStrategyCallback. fold gh.
  destruct (parallel (user_reports_first env) (findUser gh profile)
                     (checkAuthorization gh) w) as [r w'].
  simpl in Hboth. subst r. reflexivity.
Qed.

(** X14: when both branches succeed with an authorized level and the store
    takes the write, the attempt ends without error with the synchronized
    account: its level is the derived one whatever it was before, and the
    document returned is the one now in the store. *)
Theorem authorized_attempt_persists (accessToken refreshToken : string)
    (profile : Profile) (w : World) (user : User) (n : Z) :
  let gh := {| gh_profile := profile; gh_accessToken := accessToken;
               gh_api := GitHub_remote env profile accessToken |} in
  let levelled := set_account_level user n in
  let synced :=
    match User_account user "github" (profile_id profile) with
    | Some _ => levelled
    | None => push_account levelled (github_account gh levelled)
    end in
  fst (findUser gh profile w) = inr user ->
  fst (checkAuthorization gh w) = inr (Level n) ->
  User_save_error env synced = None ->
  let attempt := makeStrategyCallback accessToken refreshToken profile w in
  fst attempt = (None, Some synced) /\
  account_level synced = Some n /\
  db (snd attempt) = upsert synced (db (snd (findUser gh profile w))) /\
  In synced (db (snd attempt)).
Proof.
  intros gh levelled synced Hu Ha Hs attempt.
  destruct (makeStrategyCallback_run accessToken refreshToken profile w Hu Ha)
    as [w' [Hdb Hrun]].
  change (db w' = db (snd (findUser gh profile w))) in Hdb.
  assert (Hsync : makeStrategyCallback accessToken refreshToken profile w =
            match User_save_error env synced with
            | Some err =>
                ((Some (CollaboratorError err), Some synced), record (CallSave synced) w')
            | None =>
                ((None, Some synced),
                 with_db (upsert synced (db w')) (record (CallSave synced) w'))
            end)
    by (rewrite Hrun; exact (syncUserModel_run gh user n w')).
  subst attempt. rewrite Hsync, Hs. simpl fst. simpl snd.
  split; [reflexivity |]. split.
  - subst synced levelled.
    destruct (User_account user "github" (profile_id profile)); reflexivity.
  - simpl db. rewrite Hdb. split; [reflexivity |].
    apply upsert_stored_ids.
    assert (Hid : _id synced = _id user).
    { subst synced levelled.
      destruct (User_account user "github" (profile_id profile)); reflexivity. }
    destruct (findUser_cases gh profile w) as [[e [He _]] | [[v [Hv [Hin Hd]]] | [v [Hv Hd]]]].
    + congruence.
    + exists v. rewrite Hd. split; [exact Hin | congruence].
    + exists v. rewrite Hd. split; [apply in_or_app; right; left; reflexivity | congruence].
Qed.

(** X15: when the store refuses the synchronized document the final
    callback gets the store's error together with the document as changed
    in memory, and the store holds what the resolver left. *)
Theorem refused_synchronization (accessToken refreshToken : string)
    (profile : Profile) (w : World) (user : User) (n : Z) (err : string) :
  let gh := {| gh_profile := profile; gh_accessToken := accessToken;
               gh_api := GitHub_remote env profile accessToken |} in
  let levelled := set_account_level user n in
  let synced :=
    match User_account user "github" (profile_id profile) with
    | Some _ => levelled
    | None => push_account levelled (github_account gh levelled)
    end in
  fst (findUser gh profile w) = inr user ->
  fst (checkAuthorization gh w) = inr (Level n) ->
  User_save_error env synced = Some err ->
  let attempt := makeStrategyCallback accessToken refreshToken profile w in
  fst attempt = (Some (CollaboratorError err), Some synced) /\
  db (snd attempt) = db (snd (findUser gh profile w)).
Proof.
  intros gh levelled synced Hu Ha Hs attempt.
  destruct (makeStrategyCallback_run accessToken refreshToken profile w Hu Ha)
    as [w' [Hdb Hrun]].
  change (db w' = db (snd (findUser gh profile w))) in Hdb.
  assert (Hsync : makeStrategyCallback accessToken refreshToken profile w =
            match User_save_error env synced with
            | Some err =>
                ((Some (CollaboratorError err), Some synced), record (CallSave synced) w')
            | None =>
                ((None, Some synced),
                 with_db (upsert synced (db w')) (record (CallSave synced) w'))
            end)
    by (rewrite Hrun; exact (syncUserModel_run gh user n w')).
  subst attempt. rewrite Hsync, Hs. simpl fst. simpl snd.
  split; [reflexivity | exact Hdb].
Qed.

(** A failed branch leaves the store to the resolver. *)
Lemma failed_branch_db (accessToken refreshToken : string) (profile : Profile) (w : World) :
  let gh := {| gh_profile := profile; gh_accessToken := accessToken;
               gh_api := GitHub_remote env profile accessToken |} in
  let attempt := makeStrategyCallback accessToken refreshToken profile w in
  (forall e, fst (findUser gh profile w) = inl e ->
   db (snd attempt) = db (snd (findUser gh profile w))) /\
  (forall e, fst (checkAuthorization gh w) = inl e ->
   db (snd attempt) = db (snd (findUser gh profile w))).
Proof.
  intros gh attempt.
  destruct (branches_independent gh profile w) as [_ [Hfst [Hdb _]]].
  assert (H : (exists e, fst (findUser gh profile w) = inl e) \/
              (exists e, fst (checkAuthorization gh w) = inl e) ->
              db (snd attempt) = db (snd (findUser gh profile w))).
  { intros Hfail. rewrite <- Hdb. subst attempt. unfold makeStrategyCallback. fold gh.
    rewrite <- Hfst in Hfail. clear Hfst Hdb. unfold parallel.
    destruct (findUser gh profile w) as [ra w1]. simpl in *.
    destruct (checkAuthorization gh w1) as [rb w2]. simpl in *.
    destruct ra as [e1 | user], rb as [e2 | authorization]; try reflexivity.
    destruct Hfail as [[e H] | [e H]]; discriminate. }
  split; intros e He; apply H; [left | right]; exists e; exact He.
Qed.

(** X16: when either branch fails the attempt ends with the error of a
    failed branch and without an account; the synchronizer is not run, so
    the store is as the resolver left it and the only writes asked of it are
    the resolver's (an account the resolver created stays). *)
Theorem failed_branch_skips_synchronization (accessToken refreshToken : string)
    (profile : Profile) (w : World) :
  let gh := {| gh_profile := profile; gh_accessToken := accessToken;
               gh_api := GitHub_remote env profile accessToken |} in
  let attempt := makeStrategyCallback accessToken refreshToken profile w in
  (exists e, fst (findUser gh profile w) = inl e) \/
  (exists e, fst (checkAuthorization gh w) = inl e) ->
  (exists e,
     fst attempt = (Some e, None) /\
     (fst (findUser gh profile w) = inl e \/ fst (checkAuthorization gh w) = inl e)) /\
  db (snd attempt) = db (snd (findUser gh profile w)) /\
  filter is_save_call (issued w (snd attempt)) =
    filter is_save_call (issued w (snd (findUser gh profile w))).
Proof.
  intros gh attempt Hfail.
  destruct (branches_independent gh profile w) as [_ [Hfst [Hdb [Hsaves _]]]].
  assert (Hrun : exists e,
            (fst (findUser gh profile w) = inl e \/ fst (checkAuthorization gh w) = inl e) /\
            attempt =
              ((Some e, None),
               snd (parallel (user_reports_first env) (findUser gh profile)
                             (checkAuthorization gh) w))).
  { subst attempt. unfold makeStrategyCallback. fold gh.
    rewrite <- Hfst in Hfail |- *. clear Hfst Hdb Hsaves. unfold parallel.
    destruct (findUser gh profile w) as [ra w1]. simpl in *.
    destruct (checkAuthorization gh w1) as [rb w2]. simpl in *.
    destruct ra as [e1 | user], rb as [e2 | authorization].
    - destruct (user_reports_first env); [exists e1 | exists e2]; split; auto.
    - exists e1. split; auto.
    - exists e2. split; auto.
    - destruct Hfail as [[e H] | [e H]]; discriminate. }
  destruct Hrun as [e [He Hrun]]. rewrite Hrun. simpl fst. simpl snd.
  split; [exists e; split; [reflexivity | exact He] |].
  split; [exact Hdb | exact Hsaves].
Qed.

(** X17: a newcomer who is let in and comes back is recognised: the second
    attempt finds the account the first one created, creates none, links no
    second identity and only sets the level anew; the store holds one more
    account than before the first attempt. *)
Theorem second_attempt_links_nothing (accessToken refreshToken : string)
    (profile : Profile) (w : World) (addresses : list string)
    (primary : option string) (n n2 : Z) :
  let gh := {| gh_profile := profile; gh_accessToken := accessToken;
               gh_api := GitHub_remote env profile accessToken |} in
  let user :=
    {| _id := fresh_id (db w); user_email := primary;
       created := Some (Date_now env);
       password := Some (crypto_randomBytes env);
       projects := []; accounts := []; account_level := None |} in
  let synced := push_account (set_account_level user n)
                             (github_account gh (set_account_level user n)) in
  let again := set_account_level synced n2 in
  fst (emailsFromGitHub gh w) = inr (addresses, primary) ->
  User_find_error env addresses = None ->
  filter (email_in addresses) (db w) = [] ->
  User_save_error env user = None ->
  fst (checkAuthorization gh w) = inr (Level n) ->
  User_save_error env synced = None ->
  let first := makeStrategyCallback accessToken refreshToken profile w in
  fst (checkAuthorization gh (snd first)) = inr (Level n2) ->
  User_save_error env again = None ->
  let second := makeStrategyCallback accessToken refreshToken profile (snd first) in
  fst first = (None, Some synced) /\
  db (snd first) = db w ++ [synced] /\
  fst second = (None, Some again) /\
  accounts again = [github_account gh (set_account_level user n)] /\
  db (snd second) = db w ++ [again].
Proof.
  intros gh user synced again He Hf Hr Hs Ha Hs2 first Ha2 Hs3 second.
  (* the first attempt *)
  assert (Hfind : findUser gh profile w =
            (inr user, with_db (db w ++ [user])
                         (record (CallSave user)
                            (record (CallFind addresses) (record CallEmails w))))).
  { rewrite (findUser_run gh profile w He Hf). fold (created_user w primary).
    change (created_user w primary) with user. rewrite Hr, Hs. reflexivity. }
  assert (Hu : fst (findUser gh profile w) = inr user) by (rewrite Hfind; reflexivity).
  destruct (makeStrategyCallback_run accessToken refreshToken profile w Hu Ha)
    as [w' [Hdb Hrun]].
  change (db w' = db (snd (findUser gh profile w))) in Hdb.
  rewrite Hfind in Hdb. simpl in Hdb.
  assert (Hfirst : first = ((None, Some synced),
                            with_db (upsert synced (db w')) (record (CallSave synced) w'))).
  { subst first. rewrite Hrun.
    pose proof (syncUserModel_run gh user n w') as Hsync.
    change (syncUserModel gh (Some user) (Level n) w' =
            match User_save_error env synced with
            | Some err =>
                ((Some (CollaboratorError err), Some synced), record (CallSave synced) w')
            | None =>
                ((None, Some synced),
                 with_db (upsert synced (db w')) (record (CallSave synced) w'))
            end) in Hsync.
    rewrite Hs2 in Hsync. exact Hsync. }
  assert (Hdb1 : db (snd first) = db w ++ [synced]).
  { rewrite Hfirst. simpl. rewrite Hdb. apply upsert_last; reflexivity. }
  (* the second attempt *)
  destruct (emailsFromGitHub_primary gh w He) as [_ [p [Hp Hin]]].
  assert (He1 : fst (emailsFromGitHub gh (snd first)) = inr (addresses, primary))
    by (rewrite (emailsFromGitHub_any_world gh (snd first) w); exact He).
  assert (Hfound : filter (email_in addresses) (db (snd first)) = [synced]).
  { rewrite Hdb1, filter_app, Hr. simpl.
    rewrite (@email_in_primary addresses p synced Hp Hin). reflexivity. }
  assert (Hfind1 : findUser gh profile (snd first) =
            (inr synced, record (CallFind addresses) (record CallEmails (snd first)))).
  { rewrite (findUser_run gh profile (snd first) He1 Hf), Hfound. reflexivity. }
  assert (Hu1 : fst (findUser gh profile (snd first)) = inr synced)
    by (rewrite Hfind1; reflexivity).
  destruct (makeStrategyCallback_run accessToken refreshToken profile (snd first) Hu1 Ha2)
    as [w'' [Hdb' Hrun']].
  change (db w'' = db (snd (findUser gh profile (snd first)))) in Hdb'.
  rewrite Hfind1 in Hdb'. simpl in Hdb'. rewrite Hdb1 in Hdb'.
  assert (Hlinked : User_account synced "github" (profile_id (gh_profile gh)) =
                    Some (github_account gh (set_account_level user n))).
  { unfold User_account. simpl. rewrite String.eqb_refl. reflexivity. }
  assert (Hsecond : second = ((None, Some again),
                              with_db (upsert again (db w'')) (record (CallSave again) w''))).
  { subst second. rewrite Hrun'.
    pose proof (syncUserModel_run gh synced n2 w'') as Hsync.
    cbv zeta in Hsync. rewrite Hlinked in Hsync.
    change (set_account_level synced n2) with again in Hsync.
    rewrite Hs3 in Hsync. exact Hsync. }
  split; [rewrite Hfirst; reflexivity |]. split; [exact Hdb1 |].
  split; [rewrite Hsecond; reflexivity |]. split; [reflexivity |].
  rewrite Hsecond. simpl. rewrite Hdb'. apply upsert_last; reflexivity.
Qed.

(** X18: no attempt removes an account or changes which documents the
    store holds: afterwards the store has the identifiers it had, in the
    same order, followed by at most one new one. *)
Theorem attempt_never_deletes (accessToken refreshToken : string)
    (profile : Profile) (w : World) :
  let attempt := makeStrategyCallback accessToken refreshToken profile w in
  exists extra,
    map _id (db (snd attempt)) = map _id (db w) ++ extra /\
    List.length extra <= 1.
Proof.
  intros attempt. subst attempt.
  set (gh := {| gh_profile := profile; gh_accessToken := accessToken;
                gh_api := GitHub_remote env profile accessToken |}).
  assert (Hresolver : exists extra,
            db (snd (findUser gh profile w)) = db w ++ extra /\ List.length extra <= 1).
  { destruct (findUser_cases gh profile w) as [[e [_ Hd]] | [[v [_ [_ Hd]]] | [v [_ Hd]]]].
    - exists []. rewrite Hd, app_nil_r. auto.
    - exists []. rewrite Hd, app_nil_r. auto.
    - exists [v]. auto. }
  destruct Hresolver as [extra [Hextra Hlen]].
  exists (map _id extra). rewrite length_map. split; [| exact Hlen].
  rewrite <- map_app, <- Hextra.
  destruct (fst (findUser gh profile w)) as [e | user] eqn:Hu.
  - destruct (failed_branch_db accessToken refreshToken profile w) as [H _].
    fold gh in H. rewrite (H e Hu). reflexivity.
  - destruct (fst (checkAuthorization gh w)) as [e | authorization] eqn:Ha.
    + destruct (failed_branch_db accessToken refreshToken profile w) as [_ H].
      fold gh in H. rewrite (H e Ha). reflexivity.
    + destruct (makeStrategyCallback_run accessToken refreshToken profile w Hu Ha)
        as [w' [Hdb Hrun]].
      change (db w' = db (snd (findUser gh profile w))) in Hdb.
      change (makeStrategyCallback accessToken refreshToken profile w =
              merge gh (Some user) authorization w') in Hrun.
      rewrite Hrun, <- Hdb. unfold merge.
      destruct authorization as [| n]; [reflexivity |].
      pose proof (syncUserModel_run gh user n w') as Hsync. cbv zeta in Hsync.
      rewrite Hsync.
      match goal with |- context [User_save_error env ?u] =>
        set (synced := u) in * end.
      destruct (User_save_error env synced); [reflexivity |].
      simpl. apply upsert_stored_ids.
      assert (Hid : _id synced = _id user).
      { subst synced.
        destruct (User_account user "github" (profile_id (gh_profile gh))); reflexivity. }
      rewrite Hdb.
      destruct (findUser_cases gh profile w) as [[e [He _]] | [[v [Hv [Hin Hd]]] | [v [Hv Hd]]]].
      * congruence.
      * exists v. rewrite Hd. split; [exact Hin | congruence].
      * exists v. rewrite Hd.
        split; [apply in_or_app; right; left; reflexivity | congruence].
Qed.

End MakeStrategyCallback.

(** ** The theorems at concrete inputs *)

Lemma emailsFromGitHub_normalizes_witness :
  fst (emailsFromGitHub ascii_toLowerCase (client several_addresses_api) world0) =
    inr (["mona@github.com"; "hubot@github.com"; "octo@github.com"],
         Some "hubot@github.com") /\
  fst (emailsFromGitHub ascii_toLowerCase (client unflagged_api) world0) =
    inr (["mona@github.com"; "hubot@github.com"], Some "mona@github.com") /\
  fst (emailsFromGitHub ascii_toLowerCase (client unverified_api) world0) =
    inl NoVerifiedEmail.
Proof.
  split; [| split].
  - destruct (emailsFromGitHub_normalizes ascii_toLowerCase (client several_addresses_api)
                world0 (emails := several_addresses) eq_refl)
      as [_ [_ Hsome]].
    + repeat constructor; discriminate.
    + apply Hsome. discriminate.
  - destruct (emailsFromGitHub_normalizes ascii_toLowerCase (client unflagged_api)
                world0 (emails := unflagged_addresses) eq_refl)
      as [_ [_ Hsome]].
    + repeat constructor; discriminate.
    + apply Hsome. discriminate.
  - destruct (emailsFromGitHub_normalizes ascii_toLowerCase (client unverified_api) world0
                (emails := [entry "mona@github.com" false true]) eq_refl)
      as [_ [Hnone _]].
    + repeat constructor; discriminate.
    + apply Hnone. reflexivity.
Defined.

(** Outside that precondition the test [!primary] takes an empty address
    for no address: a verified entry flagged primary whose address is empty
    does not settle the primary, and [addresses[0]] is taken. *)
Lemma emailsFromGitHub_skips_empty_primary :
  let emails := [entry "Mona@GitHub.com" true false; entry EmptyString true true] in
  api_emails (gh_api (client empty_primary_api)) = inr emails /\
  find entry_primary (filter entry_verified emails) = Some (entry EmptyString true true) /\
  fst (emailsFromGitHub ascii_toLowerCase (client empty_primary_api) world0) =
    inr (["mona@github.com"; EmptyString], Some "mona@github.com").
Proof.
  repeat split.
Qed.

Lemma findUser_creates_or_returns_witness :
  fst (findUser ascii_toLowerCase (env_of member_api) (client member_api) octocat world0) =
    inr {| _id := 1; user_email := Some "mona@github.com";
           created := Some 1446508800000%Z; password := Some "r4nd0m";
           projects := []; accounts := []; account_level := None |} /\
  fst (findUser ascii_toLowerCase (env_of member_api) (client member_api) octocat
         (with_users [stored 3 "hubot@github.com"; stored 4 "mona@github.com"])) =
    inr (stored 4 "mona@github.com").
Proof.
  split.
  - destruct (findUser_creates_or_returns ascii_toLowerCase (env_of member_api)
                (client member_api) octocat world0
                (addresses := ["mona@github.com"]) (primary := Some "mona@github.com")
                eq_refl eq_refl) as [Hcreates _].
    destruct (Hcreates eq_refl eq_refl) as [H _]. exact H.
  - destruct (findUser_creates_or_returns ascii_toLowerCase (env_of member_api)
                (client member_api) octocat
                (with_users [stored 3 "hubot@github.com"; stored 4 "mona@github.com"])
                (addresses := ["mona@github.com"]) (primary := Some "mona@github.com")
                eq_refl eq_refl) as [_ Hreturns].
    destruct (Hreturns (stored 4 "mona@github.com") eq_refl) as [H _]. exact H.
Defined.

Lemma findUser_ambiguous_witness :
  fst (findUser ascii_toLowerCase (env_of two_address_api) (client two_address_api) octocat
         (with_users [stored 3 "hubot@github.com"; stored 4 "mona@github.com"])) =
    inl (NewError
           "More than one user found matching addresses: hubot@github.com,mona@github.com").
Proof.
  apply (findUser_ambiguous ascii_toLowerCase (env_of two_address_api)
           (client two_address_api) octocat
           (with_users [stored 3 "hubot@github.com"; stored 4 "mona@github.com"])
           (addresses := ["mona@github.com"; "hubot@github.com"])
           (primary := Some "mona@github.com") eq_refl eq_refl).
  simpl. lia.
Defined.

Lemma ensureTeamId_caches_witness :
  teamIds_get (teamIds (snd (ensureTeamId team_config (client member_api) access world0)))
              access = Some 7%Z /\
  teamIds (snd (ensureTeamId team_config (client outsider_api) access world0)) = teamIds_init /\
  fst (ensureTeamId team_config (client failing_api) access world0) =
    inl (CollaboratorError "ECONNRESET").
Proof.
  assert (Hname : "devs" <> EmptyString) by discriminate.
  split; [| split].
  - destruct (ensureTeamId_caches team_config (client member_api) access world0
                eq_refl eq_refl Hname) as [_ [Hfound _]].
    destruct (Hfound 7%Z eq_refl) as [_ [H _]]. exact H.
  - destruct (ensureTeamId_caches team_config (client outsider_api) access world0
                eq_refl eq_refl Hname) as [_ [_ [Hmissing _]]].
    destruct (Hmissing eq_refl) as [_ [H _]]. exact H.
  - destruct (ensureTeamId_caches team_config (client failing_api) access world0
                eq_refl eq_refl Hname) as [_ [_ [_ Hfails]]].
    destruct (Hfails "ECONNRESET" eq_refl) as [H _]. exact H.
Defined.

(** C2, the claim as stated, fails: the API reports that the team does not
    exist, nothing is stored, and the next call for the same role asks the
    API once more. *)
Lemma ensureTeamId_asks_again_after_not_found :
  let first := ensureTeamId team_config (client outsider_api) access world0 in
  let second := ensureTeamId team_config (client outsider_api) access (snd first) in
  api_findTeamWithName outsider_api "acme" "devs" = inr None /\
  fst first = inr tt /\
  teamIds_get (teamIds (snd first)) access = None /\
  issued (snd first) (snd second) = [CallFindTeamWithName "acme" "devs"].
Proof.
  repeat split.
Qed.

Lemma checkAuthorization_organization_witness :
  fst (checkAuthorization org_config (env_of member_api) (client member_api) world0) =
    inr ACCESS /\
  fst (checkAuthorization org_config (env_of two_address_api) (client two_address_api) world0) =
    inr ADMIN /\
  fst (checkAuthorization org_config (env_of outsider_api) (client outsider_api) world0) =
    inr UNAUTHORIZED.
Proof.
  split; [| split].
  - rewrite (checkAuthorization_organization org_config (env_of member_api)
               (client member_api) world0 (isMember := true) (isAdmin := false)
               eq_refl eq_refl). reflexivity.
  - rewrite (checkAuthorization_organization org_config (env_of two_address_api)
               (client two_address_api) world0 (isMember := true) (isAdmin := true)
               eq_refl eq_refl). reflexivity.
  - rewrite (checkAuthorization_organization org_config (env_of outsider_api)
               (client outsider_api) world0 (isMember := false) (isAdmin := false)
               eq_refl eq_refl). reflexivity.
Defined.

Lemma checkAuthorization_teams_witness :
  fst (checkAuthorization team_config (env_of member_api) (client member_api) world0) =
    inr ACCESS /\
  fst (checkAuthorization team_config (env_of two_address_api) (client two_address_api) world0) =
    inr ADMIN /\
  fst (checkAuthorization team_config (env_of outsider_api) (client outsider_api) world0) =
    inr UNAUTHORIZED /\
  filter is_membership_call
    (issued world0
       (snd (checkAuthorization team_config (env_of outsider_api) (client outsider_api) world0)))
    = [].
Proof.
  split; [| split].
  - destruct (checkAuthorization_teams team_config (env_of member_api)
                (client member_api) world0 eq_refl eq_refl) as [_ Hboth].
    exact (Hboth 7%Z 9%Z true false eq_refl eq_refl eq_refl eq_refl).
  - destruct (checkAuthorization_teams team_config (env_of two_address_api)
                (client two_address_api) world0 eq_refl eq_refl) as [_ Hboth].
    exact (Hboth 7%Z 9%Z false true eq_refl eq_refl eq_refl eq_refl).
  - destruct (checkAuthorization_teams team_config (env_of outsider_api)
                (client outsider_api) world0 eq_refl eq_refl) as [Hunresolved _].
    exact (Hunresolved (or_introl eq_refl)).
Defined.

Lemma syncUserModel_links_once_witness :
  exists synced,
    snd (fst (syncUserModel (env_of member_api) (client member_api)
                (Some (stored 4 "mona@github.com")) ACCESS
                (with_users [stored 4 "mona@github.com"]))) = Some synced /\
    map account_id (accounts synced) = ["583231"] /\
    account_level synced = Some 0%Z /\
    exists again,
      snd (fst (syncUserModel (env_of two_address_api) (client two_address_api)
                  (Some synced) ADMIN (with_users [synced]))) = Some again /\
      accounts again = accounts synced.
Proof.
  destruct (syncUserModel_links_once (env_of member_api) (client member_api)
              (stored 4 "mona@github.com") 0 (with_users [stored 4 "mona@github.com"]))
    as [synced [Hrun [Hlevel [Hnew [_ [_ Hagain]]]]]].
  exists synced. split; [exact Hrun |]. split; [| split; [exact Hlevel |]].
  - rewrite (Hnew eq_refl). reflexivity.
  - exact (Hagain (client two_address_api) 1%Z (with_users [synced]) eq_refl).
Defined.

Lemma unauthorized_is_denied_without_write_witness :
  let attempt :=
    makeStrategyCallback ascii_toLowerCase org_config (env_of outsider_api)
      "token" "refresh" octocat (with_users [stored 4 "mona@github.com"]) in
  fst attempt = (Some AuthorizationDenied, None) /\
  db (snd attempt) = [stored 4 "mona@github.com"].
Proof.
  destruct (unauthorized_is_denied_without_write ascii_toLowerCase org_config
              (env_of outsider_api) "token" "refresh" octocat
              (with_users [stored 4 "mona@github.com"])
              (user := stored 4 "mona@github.com") eq_refl eq_refl)
    as [Hdenied [Hdb _]].
  split; [exact Hdenied | exact Hdb].
Defined.

Lemma unauthorized_newcomer_stays_created_witness :
  let attempt :=
    makeStrategyCallback ascii_toLowerCase org_config (env_of outsider_api)
      "token" "refresh" octocat world0 in
  fst attempt = (Some AuthorizationDenied, None) /\
  db (snd attempt) =
    [{| _id := 1; user_email := Some "mona@github.com";
        created := Some 1446508800000%Z; password := Some "r4nd0m";
        projects := []; accounts := []; account_level := None |}].
Proof.
  destruct (unauthorized_newcomer_stays_created ascii_toLowerCase org_config
              (env_of outsider_api) "token" "refresh" octocat world0
              (addresses := ["mona@github.com"]) (primary := Some "mona@github.com")
              eq_refl eq_refl eq_refl eq_refl eq_refl)
    as [Hdenied [Hdb _]].
  split; [exact Hdenied | exact Hdb].
Defined.

(** ** The further properties at concrete inputs *)

Lemma primary_is_a_candidate_witness :
  ["mona@github.com"] <> [] /\
  exists p, Some "mona@github.com" = Some p /\ In p ["mona@github.com"].
Proof.
  exact (primary_is_a_candidate ascii_toLowerCase (client member_api) world0
           (addresses := ["mona@github.com"]) (primary := Some "mona@github.com") eq_refl).
Defined.

Lemma findUser_fails_before_the_store_witness :
  findUser ascii_toLowerCase (env_of unverified_api) (client unverified_api) octocat world0 =
    (inl NoVerifiedEmail, record CallEmails world0) /\
  findUser ascii_toLowerCase (env_of offline_api) (client offline_api) octocat world0 =
    (inl (CollaboratorError "ETIMEDOUT"), record CallEmails world0).
Proof.
  split.
  - exact (proj1 (findUser_fails_before_the_store ascii_toLowerCase (env_of unverified_api)
                    (client unverified_api) octocat world0 (e := NoVerifiedEmail) eq_refl)).
  - exact (proj1 (findUser_fails_before_the_store ascii_toLowerCase (env_of offline_api)
                    (client offline_api) octocat world0
                    (e := CollaboratorError "ETIMEDOUT") eq_refl)).
Defined.

Lemma findUser_query_error_witness :
  findUser ascii_toLowerCase (env_with member_api (Some "EDB") None)
           (client member_api) octocat world0 =
    (inl (CollaboratorError "EDB"),
     record (CallFind ["mona@github.com"]) (record CallEmails world0)).
Proof.
  exact (findUser_query_error ascii_toLowerCase (env_with member_api (Some "EDB") None)
           (client member_api) octocat world0
           (addresses := ["mona@github.com"]) (primary := Some "mona@github.com")
           eq_refl eq_refl).
Defined.

Lemma findUser_save_refused_witness :
  let attempt := findUser ascii_toLowerCase (env_with member_api None (Some "EDB"))
                          (client member_api) octocat world0 in
  fst attempt = inl (CollaboratorError "EDB") /\ db (snd attempt) = [].
Proof.
  destruct (findUser_save_refused ascii_toLowerCase (env_with member_api None (Some "EDB"))
              (client member_api) octocat world0
              (addresses := ["mona@github.com"]) (primary := Some "mona@github.com")
              eq_refl eq_refl eq_refl eq_refl) as [Hfails [Hdb _]].
  split; [exact Hfails | exact Hdb].
Defined.


Lemma organization_mode_asks_once_witness :
  issued world0
    (snd (checkAuthorization org_config (env_of member_api) (client member_api) world0)) =
    [CallBelongsToOrganization "acme"] /\
  fst (checkAuthorization org_config (env_of offline_api) (client offline_api) world0) =
    inl (CollaboratorError "ETIMEDOUT").
Proof.
  split.
  - rewrite (proj1 (organization_mode_asks_once org_config (env_of member_api)
                      (client member_api) world0 eq_refl)).
    reflexivity.
  - exact (proj2 (organization_mode_asks_once org_config (env_of offline_api)
                    (client offline_api) world0 eq_refl) "ETIMEDOUT" eq_refl).
Defined.

Lemma team_mode_uses_cached_ids_witness :
  issued resolved_world
    (snd (checkAuthorization team_config (env_of offline_api) (client offline_api)
            resolved_world)) =
    [CallBelongsToTeam 7; CallBelongsToTeam 9].
Proof.
  rewrite (team_mode_uses_cached_ids team_config (env_of offline_api) (client offline_api)
             resolved_world (access_id := 7) (admin_id := 9) eq_refl eq_refl eq_refl).
  reflexivity.
Defined.

Lemma team_mode_first_evaluation_witness :
  let w' := snd (checkAuthorization team_config (env_of member_api) (client member_api)
                   world0) in
  issued world0 w' =
    [CallFindTeamWithName "acme" "devs"; CallFindTeamWithName "acme" "ops";
     CallBelongsToTeam 7; CallBelongsToTeam 9] /\
  teamIds w' = {| teamIds_access := Some 7%Z; teamIds_admin := Some 9%Z |}.
Proof.
  assert (Hdevs : "devs" <> EmptyString) by discriminate.
  assert (Hops : "ops" <> EmptyString) by discriminate.
  exact (team_mode_first_evaluation team_config (env_of member_api) (client member_api)
           world0 (access_name := "devs") (admin_name := "ops")
           (access_id := 7) (admin_id := 9)
           eq_refl Hdevs eq_refl Hops eq_refl eq_refl eq_refl).
Defined.

Lemma lookup_failure_keeps_the_other_id_witness :
  let attempt := checkAuthorization team_config (env_of half_resolving_api)
                   (client half_resolving_api) world0 in
  fst attempt = inl (CollaboratorError "ECONNRESET") /\
  teamIds (snd attempt) = {| teamIds_access := None; teamIds_admin := Some 9%Z |}.
Proof.
  assert (Hdevs : "devs" <> EmptyString) by discriminate.
  assert (Hops : "ops" <> EmptyString) by discriminate.
  destruct (lookup_failure_keeps_the_other_id team_config (env_of half_resolving_api)
              (client half_resolving_api) world0
              (access_name := "devs") (admin_name := "ops") (err := "ECONNRESET")
              (admin_id := 9) eq_refl Hdevs eq_refl Hops eq_refl eq_refl eq_refl)
    as [Hfails [Hcache _]].
  split; [exact Hfails | exact Hcache].
Defined.

Lemma membership_failure_fails_the_evaluation_witness :
  fst (checkAuthorization team_config (env_of flaky_membership_api)
         (client flaky_membership_api) world0) = inl (CollaboratorError "EPIPE").
Proof.
  exact (proj1 (@membership_failure_fails_the_evaluation team_config
                  (env_of flaky_membership_api) (client flaky_membership_api) world0
                  7%Z 9%Z "EPIPE" true eq_refl eq_refl eq_refl eq_refl)
               eq_refl eq_refl).
Defined.

Lemma cached_team_id_is_final_witness :
  teamIds_get
    (teamIds (snd (makeStrategyCallback ascii_toLowerCase team_config
                     (env_of two_address_api) "token" "refresh" octocat resolved_world)))
    admin = Some 9%Z.
Proof.
  exact (proj2 (cached_team_id_is_final ascii_toLowerCase team_config
                  (env_of two_address_api) "token" "refresh" octocat
                  (client two_address_api) resolved_world admin (id := 9) eq_refl)).
Defined.

Lemma authorized_attempt_persists_witness :
  let attempt :=
    makeStrategyCallback ascii_toLowerCase org_config (env_of member_api)
      "token" "refresh" octocat (with_users [stored 4 "mona@github.com"]) in
  exists synced,
    fst attempt = (None, Some synced) /\
    account_level synced = Some 0%Z /\
    In synced (db (snd attempt)).
Proof.
  destruct (@authorized_attempt_persists ascii_toLowerCase org_config (env_of member_api)
              "token" "refresh" octocat (with_users [stored 4 "mona@github.com"])
              (stored 4 "mona@github.com") 0%Z eq_refl eq_refl eq_refl)
    as [Hends [Hlevel [_ Hstored]]].
  eexists. split; [exact Hends |]. split; [exact Hlevel | exact Hstored].
Defined.

Lemma refused_synchronization_witness :
  let attempt :=
    makeStrategyCallback ascii_toLowerCase org_config
      (env_with member_api None (Some "EDB"))
      "token" "refresh" octocat (with_users [stored 4 "mona@github.com"]) in
  fst (fst attempt) = Some (CollaboratorError "EDB") /\
  db (snd attempt) = [stored 4 "mona@github.com"].
Proof.
  destruct (@refused_synchronization ascii_toLowerCase org_config
              (env_with member_api None (Some "EDB"))
              "token" "refresh" octocat (with_users [stored 4 "mona@github.com"])
              (stored 4 "mona@github.com") 0%Z "EDB" eq_refl eq_refl eq_refl)
    as [Hends Hdb].
  split; [rewrite Hends; reflexivity | exact Hdb].
Defined.

Lemma failed_branch_skips_synchronization_witness :
  let attempt :=
    makeStrategyCallback ascii_toLowerCase org_config (env_of offline_api)
      "token" "refresh" octocat (with_users [stored 4 "mona@github.com"]) in
  db (snd attempt) = [stored 4 "mona@github.com"] /\
  exists e, fst attempt = (Some e, None).
Proof.
  destruct (failed_branch_skips_synchronization ascii_toLowerCase org_config
              (env_of offline_api) "token" "refresh" octocat
              (with_users [stored 4 "mona@github.com"])
              (or_introl (ex_intro _ (CollaboratorError "ETIMEDOUT") eq_refl)))
    as [[e [Hends _]] [Hdb _]].
  split; [exact Hdb | exists e; exact Hends].
Defined.

Lemma second_attempt_links_nothing_witness :
  let first :=
    makeStrategyCallback ascii_toLowerCase org_config (env_of member_api)
      "token" "refresh" octocat world0 in
  let second :=
    makeStrategyCallback ascii_toLowerCase org_config (env_of member_api)
      "token" "refresh" octocat (snd first) in
  fst second = fst first /\
  List.length (db (snd second)) = 1.
Proof.
  destruct (@second_attempt_links_nothing ascii_toLowerCase org_config (env_of member_api)
              "token" "refresh" octocat world0
              ["mona@github.com"] (Some "mona@github.com") 0%Z 0%Z
              eq_refl eq_refl eq_refl eq_refl eq_refl eq_refl eq_refl eq_refl)
    as [Hfirst [_ [Hsecond [_ Hdb]]]].
  split.
  - rewrite Hsecond, Hfirst. reflexivity.
  - rewrite Hdb. reflexivity.
Defined.
